(** * Snow-cover-area pipeline of the Cubes & Clouds notebooks

    A shallow embedding of the computational pipeline of
    [src/31_data_processing.py] (NDSI, threshold classification, cloud
    mask, polygon mask, catchment statistics, time-series assembly and
    cloud filtering) and of the station matching of
    [src/32_validation.py].

    Cell values are the values of an array cell.  The arithmetic of the
    array engine is IEEE arithmetic; it is modelled here with exact
    rationals extended by the two infinities and the not-a-number /
    no-data marker, so rounding is abstracted away and the sign of zero
    is ignored. *)

From Stdlib Require Import ZArith QArith Qabs Bool List String Ascii Lia Lqa.
From Stdlib Require Import Permutation Sorted.
Import ListNotations.

Local Open Scope Q_scope.

(** ** Cell values *)

Module Cell.

Inductive cell : Type :=
| Num (q : Q)      (* a finite number *)
| PInf             (* +inf *)
| NInf             (* -inf *)
| NA.              (* NaN, also the no-data value of a masked cell *)

(** Equality of cells up to the value of the rational. *)
Definition equiv (a b : cell) : Prop :=
  match a, b with
  | Num x, Num y => x == y
  | PInf, PInf | NInf, NInf | NA, NA => True
  | _, _ => False
  end.

Definition of_bool (b : bool) : cell := Num (if b then 1 else 0).

Definition neg (a : cell) : cell :=
  match a with
  | Num x => Num (- x)
  | PInf => NInf
  | NInf => PInf
  | NA => NA
  end.

Definition add (a b : cell) : cell :=
  match a, b with
  | NA, _ | _, NA => NA
  | Num x, Num y => Num (x + y)
  | PInf, NInf | NInf, PInf => NA
  | PInf, _ | _, PInf => PInf
  | NInf, _ | _, NInf => NInf
  end.

Definition sub (a b : cell) : cell := add a (neg b).

(** Sign of a rational as a comparison with zero. *)
Definition sgn (x : Q) : comparison := x ?= 0.

Definition inf_of (s : comparison) : cell :=
  match s with
  | Gt => PInf
  | Lt => NInf
  | Eq => NA
  end.

Definition flip (s : comparison) : comparison := CompOpp s.

Definition mul (a b : cell) : cell :=
  match a, b with
  | NA, _ | _, NA => NA
  | Num x, Num y => Num (x * y)
  | PInf, Num y | Num y, PInf => inf_of (sgn y)
  | NInf, Num y | Num y, NInf => inf_of (flip (sgn y))
  | PInf, PInf | NInf, NInf => PInf
  | PInf, NInf | NInf, PInf => NInf
  end.

(** Division: a finite number over zero is an infinity of its sign, zero
    over zero is not a number; nothing is raised. *)
Definition div (a b : cell) : cell :=
  match a, b with
  | NA, _ | _, NA => NA
  | Num x, Num y => if Qeq_bool y 0 then inf_of (sgn x) else Num (x / y)
  | Num _, (PInf | NInf) => Num 0
  | PInf, Num y => if Qle_bool 0 y then PInf else NInf
  | NInf, Num y => if Qle_bool 0 y then NInf else PInf
  | (PInf | NInf), (PInf | NInf) => NA
  end.

(** Comparisons; every comparison with [NA] is false. *)
Definition gt (a b : cell) : bool :=
  match a, b with
  | NA, _ | _, NA => false
  | Num x, Num y => negb (Qle_bool x y)
  | PInf, PInf => false
  | PInf, _ => true
  | NInf, _ => false
  | Num _, NInf => true
  | Num _, PInf => false
  end.

Definition lt (a b : cell) : bool := gt b a.

Definition eq (a b : cell) : bool :=
  match a, b with
  | Num x, Num y => Qeq_bool x y
  | PInf, PInf | NInf, NInf => true
  | _, _ => false
  end.

(** A mask cell selects when it is a non-zero number. *)
Definition nonzero (m : cell) : bool :=
  match m with
  | Num x => negb (Qeq_bool x 0)
  | PInf | NInf => true
  | NA => false
  end.

End Cell.

Abbreviation cell := Cell.cell.
Abbreviation Num := Cell.Num.
Abbreviation PInf := Cell.PInf.
Abbreviation NInf := Cell.NInf.
Abbreviation NA := Cell.NA.

(** ** The snow-map workflow of [31_data_processing.py], cell by cell *)

(** One cell of the loaded cube [s2] at one time step: its position and
    the three bands ['B03'], ['B11'], ['SCL']. *)
Record pixel : Type := mkPixel {
  px_x : Z;
  px_y : Z;
  B03 : cell;
  B11 : cell;
  SCL : cell
}.

(** [ndsi = (green - swir) / (green + swir)] *)
Definition green (p : pixel) : cell := B03 p.
Definition swir (p : pixel) : cell := B11 p.
Definition ndsi_of (g s : cell) : cell := Cell.div (Cell.sub g s) (Cell.add g s).
Definition ndsi (p : pixel) : cell := ndsi_of (green p) (swir p).

(** [snowmap = ( ndsi > 0.4 ) * 1.0] *)
Definition threshold : cell := Num (4 # 10).
Definition classify (v : cell) : cell :=
  Cell.mul (Cell.of_bool (Cell.gt v threshold)) (Num 1).
Definition snowmap (p : pixel) : cell := classify (ndsi p).

(** [cloud_mask = ( (scl_band == 8) | (scl_band == 9) | (scl_band == 3) ) * 1.0] *)
Definition scl_band (p : pixel) : cell := SCL p.
Definition is_cloud (scl : cell) : bool :=
  Cell.eq scl (Num 8) || Cell.eq scl (Num 9) || Cell.eq scl (Num 3).
Definition cloud_mask (p : pixel) : cell :=
  Cell.mul (Cell.of_bool (is_cloud (scl_band p))) (Num 1).

(** [data.mask(mask, replacement=r)]: cells where the mask is set are
    replaced. *)
Definition mask (data m replacement : cell) : cell :=
  if Cell.nonzero m then replacement else data.

(** [snowmap_cloudfree = snowmap.mask(cloud_mask,replacement=2)] *)
Definition snowmap_cloudfree (p : pixel) : cell :=
  mask (snowmap p) (cloud_mask p) (Num 2).

(** A region geometry, as the set of cell positions it covers. *)
Definition geometry : Type := Z -> Z -> bool.

Definition within (geom : geometry) (p : pixel) : bool := geom (px_x p) (px_y p).

(** [cube.mask_polygon(geom)]: the replacement is the no-data value by
    default ("Values outside of the boundaries are set to NA"). *)
Definition mask_polygon (geom : geometry) (p : pixel) (v : cell) : cell :=
  if within geom p then v else NA.

(** [snowmap_cloudfree_masked = snowmap_cloudfree.mask_polygon(...)] *)
Definition snowmap_cloudfree_masked (geom : geometry) (p : pixel) : cell :=
  mask_polygon geom p (snowmap_cloudfree p).

(** ** Catchment statistics *)

(** The three indicator bands that are merged into one cube. *)

(** [n_catchment = ((snowmap_cloudfree > -1) * 1.0)] *)
Definition n_catchment (p : pixel) : cell :=
  Cell.mul (Cell.of_bool (Cell.gt (snowmap_cloudfree p) (Num (-1)))) (Num 1).

(** [n_cloud = cloud_mask] *)
Definition n_cloud (p : pixel) : cell := cloud_mask p.

(** [n_snow = ((snowmap_cloudfree == 1) * 1.0)] *)
Definition n_snow (p : pixel) : cell :=
  Cell.mul (Cell.of_bool (Cell.eq (snowmap_cloudfree p) (Num 1))) (Num 1).

(** [n_catchment.merge_cubes(n_cloud).merge_cubes(n_snow)]: the band
    dimension holds the three labels in this order. *)
Definition band_labels : list string :=
  ["n_catchment"; "n_cloud"; "n_snow"]%string.

Definition n_catchment_cloud_snow (p : pixel) : list cell :=
  [n_catchment p; n_cloud p; n_snow p].

(** The reducer ['sum']: no-data cells are skipped, the other values are
    added up. *)
Fixpoint sum (vs : list cell) : cell :=
  match vs with
  | [] => Num 0
  | NA :: rest => sum rest
  | v :: rest => Cell.add v (sum rest)
  end.

(** [cube.aggregate_spatial(geometries = geom, reducer = ...)] on one
    time step: every band is reduced over the cells within the
    geometry. *)
Definition band_of (cube : pixel -> list cell) (i : nat) (p : pixel) : cell :=
  nth i (cube p) NA.

Definition aggregate_spatial (geom : geometry) (reducer : list cell -> cell)
    (nbands : nat) (cube : pixel -> list cell) (slice : list pixel) : list cell :=
  let region := filter (within geom) slice in
  map (fun i => reducer (map (band_of cube i) region)) (seq 0 nbands).

(** A cube is a list of time steps, each labelled with its ISO time
    stamp. *)
Definition datacube : Type := list (string * list pixel).

(** [n_pixels], as it is saved with [save_result(format="JSON")]: a
    mapping from the time stamp to one list of band values per
    geometry; there is one geometry here. *)
Definition timeseries : Type := list (string * list (list cell)).

Definition n_pixels_slice (geom : geometry) (slice : list pixel) : list cell :=
  aggregate_spatial geom sum (List.length band_labels) n_catchment_cloud_snow slice.

Definition n_pixels (geom : geometry) (s2 : datacube) : timeseries :=
  map (fun ts => (fst ts, [n_pixels_slice geom (snd ts)])) s2.

(** Pixel counts on the composited snow map, within the geometry. *)
Definition count_cells (geom : geometry) (f : pixel -> bool) (slice : list pixel) : nat :=
  List.length (filter f (filter (within geom) slice)).

Definition is_class (k : Q) (p : pixel) : bool := Cell.eq (snowmap_cloudfree p) (Num k).

Definition above_minus_one (p : pixel) : bool :=
  Cell.gt (snowmap_cloudfree p) (Num (-1)).


(** ** Time-series assembly and cloud filtering *)

(** One row of the data frame [df], indexed by [time]. *)
Record row : Type := mkRow {
  time : string;
  n_catchment_vals : cell;
  n_cloud_vals : cell;
  n_snow_vals : cell;
  perc_cloud : cell;
  perc_snow : cell
}.

Definition dataframe : Type := list row.

(** [n_pixels_json[k][0][i]]; indexing out of range raises. *)
Definition item (k_val : list (list cell)) (i : nat) : option cell :=
  match nth_error k_val 0 with
  | Some bands => nth_error bands i
  | None => None
  end.

(** [x / y * 100] *)
Definition percentage (x y : cell) : cell := Cell.mul (Cell.div x y) (Num 100).

(** One row from one entry of the JSON mapping, with both percentage
    columns. *)
Definition row_of (entry : string * list (list cell)) : option row :=
  match item (snd entry) 0, item (snd entry) 1, item (snd entry) 2 with
  | Some c, Some cl, Some sn =>
      Some (mkRow (fst entry) c cl sn (percentage cl c) (percentage sn c))
  | _, _, _ => None
  end.

Fixpoint rows_of (j : timeseries) : option dataframe :=
  match j with
  | [] => Some []
  | e :: rest =>
      match row_of e, rows_of rest with
      | Some r, Some rs => Some (r :: rs)
      | _, _ => None
      end
  end.

(** [df.sort_values(axis=0,by="time")]; ISO time stamps of one format
    are ordered as their strings are. *)
Fixpoint insert_row (r : row) (df : dataframe) : dataframe :=
  match df with
  | [] => [r]
  | r' :: rest =>
      if String.leb (time r) (time r') then r :: df else r' :: insert_row r rest
  end.

Definition sort_values (df : dataframe) : dataframe :=
  fold_right insert_row [] df.

(** The data frame [df] after both percentage columns were added.  The
    keys are kept as they are: [pd.to_datetime], which raises on a key
    that is no time stamp, is not modelled, and time stamps of one ISO
    format are assumed. *)
Definition df_of (n_pixels_json : timeseries) : option dataframe :=
  option_map sort_values (rows_of n_pixels_json).

(** [df_filtered = df.loc[df["perc_cloud"]<25]] *)
Definition cloud_threshold : cell := Num 25.
Definition below_threshold (r : row) : bool := Cell.lt (perc_cloud r) cloud_threshold.
Definition df_filtered (df : dataframe) : dataframe := filter below_threshold df.

(** The rows the filter removes. *)
Definition over_threshold (r : row) : bool := negb (below_threshold r).

(** Rows are taken from a frame whole and in order. *)
Inductive Rows_of_frame : dataframe -> dataframe -> Prop :=
| Rows_nil : Rows_of_frame [] []
| Rows_keep r sub df : Rows_of_frame sub df -> Rows_of_frame (r :: sub) (r :: df)
| Rows_drop r sub df : Rows_of_frame sub df -> Rows_of_frame sub (r :: df).

(** ** Station matching of [32_validation.py] *)

(** One daily record of a snow station; [id] is its date. *)
Record station_record : Type := mkStation {
  Name : string;
  id : string;
  HS_after_gapfill : cell;
  snow_presence : cell
}.

(** [k.split("T")[0]]: the part of [k] before the first ['T']. *)
Fixpoint split_T_0 (k : string) : string :=
  match k with
  | EmptyString => EmptyString
  | String c rest =>
      if Ascii.eqb c "T"%char then EmptyString else String c (split_T_0 rest)
  end.

(** [dates = [k.split("T")[0] for k in snow_time_series]] *)
Definition dates_of (snow_time_series : timeseries) : list string :=
  map (fun e => split_T_0 (fst e)) snow_time_series.

(** [snow_time_series[k][station][0]]; indexing out of range raises. *)
Definition snow_val_at (station : nat) (k_val : list (list cell)) : option cell :=
  match nth_error k_val station with
  | Some bands => nth_error bands 0
  | None => None
  end.

Fixpoint snow_val (station : nat) (snow_time_series : timeseries) : option (list cell) :=
  match snow_time_series with
  | [] => Some []
  | e :: rest =>
      match snow_val_at station (snd e), snow_val station rest with
      | Some v, Some vs => Some (v :: vs)
      | _, _ => None
      end
  end.

(** [gdf.query("Name == '...'")] *)
Definition query_name (name : string) (gdf : list station_record) : list station_record :=
  filter (fun r => String.eqb (Name r) name) gdf.

(** [column.isin(dates)] *)
Definition isin (x : string) (dates : list string) : bool :=
  existsb (String.eqb x) dates.

(** [station = gdf.query(...)] followed by [station[station.id.isin(dates)]] *)
Definition station_on_dates (name : string) (dates : list string)
    (gdf : list station_record) : list station_record :=
  filter (fun r => isin (id r) dates) (query_name name gdf).

(** ** Validation against the station measurements *)

Record confusion_matrix : Type := mkConfusion {
  true_snow : nat;       (* station snow,    snow map snow    *)
  false_snow : nat;      (* station no snow, snow map snow    *)
  true_no_snow : nat;    (* station no snow, snow map no snow *)
  false_no_snow : nat    (* station snow,    snow map no snow *)
}.

(** The binary label a cell carries, if it carries one. *)
Definition label (v : cell) : option bool :=
  if Cell.eq v (Num 1) then Some true
  else if Cell.eq v (Num 0) then Some false
  else None.

(** Modelled from the spec: [assign_site_snow] of
    [_32_cubes_utilities.py], which is not among the sources.  The
    station's ground-truth labels and the values extracted from the
    snow map are combined into one data set, time step by time step. *)
Definition assign_site_snow (station : list station_record) (cube_snow : list cell)
    : list (cell * cell) :=
  combine (map snow_presence station) cube_snow.

Definition tally (cm : confusion_matrix) (truth derived : bool) : confusion_matrix :=
  match truth, derived with
  | true, true => mkConfusion (S (true_snow cm)) (false_snow cm) (true_no_snow cm) (false_no_snow cm)
  | false, true => mkConfusion (true_snow cm) (S (false_snow cm)) (true_no_snow cm) (false_no_snow cm)
  | false, false => mkConfusion (true_snow cm) (false_snow cm) (S (true_no_snow cm)) (false_no_snow cm)
  | true, false => mkConfusion (true_snow cm) (false_snow cm) (true_no_snow cm) (S (false_no_snow cm))
  end.

Fixpoint confusion (pairs : list (cell * cell)) : confusion_matrix :=
  match pairs with
  | [] => mkConfusion 0 0 0 0
  | (truth, derived) :: rest =>
      match label truth, label derived with
      | Some t, Some d => tally (confusion rest) t d
      | _, _ => confusion rest
      end
  end.

Definition correct (cm : confusion_matrix) : nat := (true_snow cm + true_no_snow cm)%nat.
Definition total (cm : confusion_matrix) : nat :=
  (true_snow cm + false_snow cm + true_no_snow cm + false_no_snow cm)%nat.

Definition count (n : nat) : cell := Num (inject_Z (Z.of_nat n)).

(** Modelled from the spec: [validation_metrics] of
    [_32_cubes_utilities.py], which is not among the sources.  Over the
    pairs of a station it computes the 2x2 confusion matrix and
    accuracy = correct / total; a time step whose ground truth is
    missing gives no pair to compare. *)
Definition validation_metrics (pairs : list (cell * cell)) : cell * confusion_matrix :=
  let cm := confusion pairs in
  (Cell.div (count (correct cm)) (count (total cm)), cm).




(** ** Operators of the data-access notebooks *)

(** [clip(x, min, max)]: a value below [min] becomes [min], a value above
    [max] becomes [max]; no-data stays no-data. *)
Definition clip (x : cell) (lo hi : Q) : cell :=
  match x with
  | NA => NA
  | Num q =>
      let m := if Qle_bool q lo then lo else q in
      Num (if Qle_bool hi m then hi else m)
  | PInf => Num hi
  | NInf => Num lo
  end.

(** [datacube.apply(f)] on the band values of one cell. *)
Definition apply (f : cell -> cell) (bands : list cell) : list cell := map f bands.

(** [data.array_element(index=i)]; a missing element raises. *)
Definition array_element (data : list cell) (index : nat) : option cell :=
  nth_error data index.

(** [NDVI(data)] of [23_data_access_reduce.py]:
    [red = data.array_element(index=0)], [nir = data.array_element(index=1)],
    [(nir - red)/(nir + red)]. *)
Definition NDVI (data : list cell) : option cell :=
  match array_element data 0, array_element data 1 with
  | Some red, Some nir => Some (Cell.div (Cell.sub nir red) (Cell.add nir red))
  | _, _ => None
  end.

(** [datacube.apply(lambda x: clip(x,0,10000))] followed by
    [reduce_dimension(reducer=NDVI,dimension="band")]. *)
Definition ndvi (bands : list cell) : option cell :=
  NDVI (apply (fun x => clip x 0 10000) bands).

(** [linear_scale_range(x, inputMin, inputMax, outputMin, outputMax)]:
    [x] is clipped to the input range and then mapped linearly,
    ((x - inputMin) / (inputMax - inputMin)) * (outputMax - outputMin)
    + outputMin. *)
Definition linear_scale_range (x : cell) (inputMin inputMax outputMin outputMax : Q) : cell :=
  Cell.add
    (Cell.mul
       (Cell.div (Cell.sub (clip x inputMin inputMax) (Num inputMin))
                 (Cell.sub (Num inputMax) (Num inputMin)))
       (Cell.sub (Num outputMax) (Num outputMin)))
    (Num outputMin).

(** [rescale] of [23_data_access_apply.py]. *)
Definition input_min : Q := - (1 # 10).
Definition input_max : Q := 2 # 10.
Definition output_min : Q := 0.
Definition output_max : Q := 1.
Definition rescale (x : cell) : cell :=
  linear_scale_range x input_min input_max output_min output_max.

(** The reducer ['median']: no-data cells are skipped; the middle of the
    sorted values, or the mean of the two middle values. *)
Definition cle (a b : cell) : bool := negb (Cell.gt a b).

Fixpoint insert_cell (a : cell) (l : list cell) : list cell :=
  match l with
  | [] => [a]
  | b :: rest => if cle a b then a :: l else b :: insert_cell a rest
  end.

Definition sort_cells (l : list cell) : list cell := fold_right insert_cell [] l.

Definition valid (c : cell) : bool :=
  match c with
  | NA => false
  | _ => true
  end.

Definition median (vs : list cell) : cell :=
  let s := sort_cells (filter valid vs) in
  let n := List.length s in
  if Nat.eqb n 0 then NA
  else if Nat.odd n then nth (n / 2) s NA
  else Cell.div (Cell.add (nth (n / 2 - 1) s NA) (nth (n / 2) s NA)) (Num 2).

(** [snow_map_cloud_free.aggregate_spatial(catchment_stations_fc,
    reducer="median")] on one time step: one list of band values per
    station buffer.  The cube [snow_map_cloud_free] is returned by
    [calculate_sca] of [_32_cubes_utilities.py], which is not among the
    sources: its one band is a parameter here. *)
Definition snowmap_per_station (snow_map_cloud_free : pixel -> cell)
    (buffers : list geometry) (slice : list pixel) : list (list cell) :=
  map (fun g => aggregate_spatial g median 1 (fun p => [snow_map_cloud_free p]) slice)
      buffers.

(** Number of cells of a list that hold the value [k]. *)
Definition count_value (k : Q) (vs : list cell) : nat :=
  List.length (filter (fun c => Cell.eq c (Num k)) vs).

(** [datacube.reduce_spatial(reducer=...)] on one time step: every band
    is reduced over all cells; a cell is given by its band values. *)
Definition reduce_spatial (reducer : list cell -> cell) (nbands : nat)
    (cells : list (list cell)) : list cell :=
  map (fun i => reducer (map (fun bands => nth i bands NA) cells)) (seq 0 nbands).

(** [datacube.apply(lambda x: clip(x,0,10000))], then
    [reduce_spatial(reducer="median")], then
    [reduce_dimension(reducer=NDVI,dimension="band")], on the cells of
    one time step of the cube with the bands red and nir. *)
Definition ndvi_spatial (cells : list (list cell)) : option cell :=
  NDVI (reduce_spatial median 2 (map (apply (fun x => clip x 0 10000)) cells)).

(** ** The item identifier of [33_data_sharing_myownmap.py] *)

(** [s.split(" ")] *)
Fixpoint split_on (sep : ascii) (s : string) : list string :=
  match s with
  | EmptyString => [EmptyString]
  | String c rest =>
      if Ascii.eqb c sep then EmptyString :: split_on sep rest
      else match split_on sep rest with
           | w :: ws => String c w :: ws
           | [] => [String c EmptyString]
           end
  end.

(** [s.lower()], on the letters A to Z. *)
Definition lower_ascii (c : ascii) : ascii :=
  let n := nat_of_ascii c in
  if (65 <=? n)%nat && (n <=? 90)%nat then ascii_of_nat (n + 32) else c.

Fixpoint lower (s : string) : string :=
  match s with
  | EmptyString => EmptyString
  | String c rest => String (lower_ascii c) (lower rest)
  end.

(** [author_id = [nam[:2] for nam in author[0]["name"].split(" ")]] *)
Definition author_id (name : string) : list string :=
  map (substring 0 2) (split_on " " name).

(** ["snowcover_" + "".join(author_id).lower() + "_" + str(ts)] with
    [ts = datetime.now().isoformat().split("T")[0]] *)
Definition item_id (name now_isoformat : string) : string :=
  ("snowcover_" ++ lower (String.concat "" (author_id name)) ++ "_"
   ++ split_T_0 now_isoformat)%string.

(** The characters of a string. *)
Definition chars (s : string) : list ascii := list_ascii_of_string s.

(** ** Sample data *)

Module Sample.

(** A catchment of three cells in a row; the fourth cell of a slice lies
    outside. *)
Definition catchment : geometry :=
  fun x y => (0 <=? x)%Z && (x <? 3)%Z && (y =? 0)%Z.

Definition snowy (x : Z) : pixel := mkPixel x 0 (Num (9 # 10)) (Num (1 # 10)) (Num 11).
Definition bare (x : Z) : pixel := mkPixel x 0 (Num (2 # 10)) (Num (3 # 10)) (Num 4).
Definition cloudy (x : Z) : pixel := mkPixel x 0 (Num (9 # 10)) (Num (1 # 10)) (Num 9).

Definition mixed_slice : list pixel := [snowy 0; bare 1; cloudy 2; snowy 3].
Definition cloudy_slice : list pixel := [cloudy 0; cloudy 1; cloudy 2; snowy 3].

Definition cube : datacube :=
  [("2018-02-10T00:00:00Z", mixed_slice); ("2018-02-15T00:00:00Z", cloudy_slice)]%string.

(** Ten time steps of a catchment of 100 cells; three of them are more
    than 25 % cloudy. *)
Definition entry (t : string) (cloud snow : Z) : string * list (list cell) :=
  (t, [[Num 100; Num (inject_Z cloud); Num (inject_Z snow)]]).

Definition ten_steps : timeseries :=
  [ entry "2018-02-05T00:00:00Z" 0 80;  entry "2018-02-10T00:00:00Z" 60 20;
    entry "2018-02-15T00:00:00Z" 10 70; entry "2018-02-20T00:00:00Z" 24 50;
    entry "2018-02-25T00:00:00Z" 90 5;  entry "2018-03-02T00:00:00Z" 5 60;
    entry "2018-03-07T00:00:00Z" 26 40; entry "2018-03-12T00:00:00Z" 0 55;
    entry "2018-03-17T00:00:00Z" 20 30; entry "2018-03-22T00:00:00Z" 1 25 ]%string.

Definition frame : dataframe :=
  match df_of ten_steps with
  | Some df => df
  | None => []
  end.

(** Daily records of two stations and a snow-map series of two dates. *)
Definition stations : list station_record :=
  [ mkStation "Plata_Osservatore" "2018-02-10" (Num 35) (Num 1);
    mkStation "Plata_Osservatore" "2018-02-11" (Num 34) (Num 1);
    mkStation "Plata_Osservatore" "2018-02-15" (Num 0) (Num 0);
    mkStation "S_Leonardo_in_Passiria_Osservatore" "2018-02-10" NA NA;
    mkStation "S_Leonardo_in_Passiria_Osservatore" "2018-02-11" NA NA;
    mkStation "S_Leonardo_in_Passiria_Osservatore" "2018-02-15" NA NA ]%string.

Definition snow_time_series : timeseries :=
  [ ("2018-02-10T00:00:00Z", [[Num 1]; [Num 1]]);
    ("2018-02-15T00:00:00Z", [[Num 1]; [Num 0]]) ]%string.


End Sample.

(** * Properties *)

(** ** Cells *)

Lemma equiv_refl (a : cell) : Cell.equiv a a.
Proof. destruct a; simpl; auto. reflexivity. Qed.

Lemma of_bool_times_one (b : bool) :
  Cell.mul (Cell.of_bool b) (Num 1) = Num (if b then 1 else 0).
Proof. destruct b; reflexivity. Qed.

Lemma gt_num (x y : Q) : Cell.gt (Num x) (Num y) = true <-> y < x.
Proof.
  simpl. rewrite negb_true_iff. split; intro H.
  - apply Qnot_le_lt. intro Hle. apply Qle_bool_iff in Hle. congruence.
  - destruct (Qle_bool x y) eqn:E; [|reflexivity].
    apply Qle_bool_iff in E. exfalso. apply (Qlt_not_le _ _ H E).
Qed.

Lemma eq_num (x y : Q) : Cell.eq (Num x) (Num y) = true <-> x == y.
Proof. simpl. apply Qeq_bool_iff. Qed.

Lemma eq_equiv (a : cell) (y : Q) : Cell.eq a (Num y) = true <-> Cell.equiv a (Num y).
Proof.
  destruct a; simpl; try (split; [discriminate | tauto]).
  apply Qeq_bool_iff.
Qed.

(** ** Classification *)

Lemma classify_cases (v : cell) :
  (Cell.gt v threshold = true /\ classify v = Num 1) \/
  (Cell.gt v threshold = false /\ classify v = Num 0).
Proof.
  unfold classify. destruct (Cell.gt v threshold); [left | right]; split; reflexivity.
Qed.

Lemma is_cloud_spec (scl : cell) :
  is_cloud scl = true <->
  Cell.equiv scl (Num 3) \/ Cell.equiv scl (Num 8) \/ Cell.equiv scl (Num 9).
Proof.
  unfold is_cloud. rewrite !orb_true_iff, !eq_equiv. tauto.
Qed.

Lemma cloud_mask_cases (p : pixel) :
  cloud_mask p = Num (if is_cloud (scl_band p) then 1 else 0).
Proof. unfold cloud_mask. apply of_bool_times_one. Qed.

Lemma snowmap_cloudfree_cases (p : pixel) :
  snowmap_cloudfree p =
  if is_cloud (scl_band p) then Num 2 else snowmap p.
Proof.
  unfold snowmap_cloudfree, mask. rewrite cloud_mask_cases.
  destruct (is_cloud (scl_band p)); reflexivity.
Qed.

Lemma snowmap_cloudfree_class (p : pixel) :
  snowmap_cloudfree p = Num 0 \/ snowmap_cloudfree p = Num 1 \/ snowmap_cloudfree p = Num 2.
Proof.
  rewrite snowmap_cloudfree_cases. destruct (is_cloud (scl_band p)); auto.
  unfold snowmap. destruct (classify_cases (ndsi p)) as [[_ H]|[_ H]]; rewrite H; auto.
Qed.

(** ** The normalized-difference snow index *)

Lemma ndsi_of_finite (g s : Q) :
  ~ g + s == 0 -> ndsi_of (Num g) (Num s) = Num ((g + - s) / (g + s)).
Proof.
  intro Hne. unfold ndsi_of. simpl.
  destruct (Qeq_bool (g + s) 0) eqn:E; [|reflexivity].
  apply Qeq_bool_iff in E. contradiction.
Qed.

Lemma normalized_difference_bounds (g s : Q) :
  0 <= g -> 0 <= s -> ~ g + s == 0 ->
  -1 <= (g + - s) / (g + s) /\ (g + - s) / (g + s) <= 1.
Proof.
  intros Hg Hs Hne.
  assert (Hpos : 0 < g + s).
  { destruct (Qlt_le_dec 0 (g + s)) as [H|H]; [exact H|].
    exfalso. apply Hne. lra. }
  split.
  - apply Qle_shift_div_l; [exact Hpos | lra].
  - apply Qle_shift_div_r; [exact Hpos | lra].
Qed.

(** C4: for non-negative band values [green] and [swir] whose sum is not
    zero, the normalized-difference snow index
    (green - swir) / (green + swir) is a finite number in [-1, 1]. *)
Theorem ndsi_in_range (p : pixel) (g s : Q) :
  green p = Num g -> swir p = Num s ->
  0 <= g -> 0 <= s -> ~ g + s == 0 ->
  exists q, ndsi p = Num q /\ -1 <= q /\ q <= 1.
Proof.
  intros Eg Es Hg Hs Hne.
  exists ((g + - s) / (g + s)). split.
  - unfold ndsi. rewrite Eg, Es. apply ndsi_of_finite, Hne.
  - apply normalized_difference_bounds; assumption.
Qed.

Lemma ndsi_in_range_witness :
  exists q, ndsi (mkPixel 0 0 (Num (3 # 10)) (Num (1 # 10)) (Num 4)) = Num q
            /\ -1 <= q /\ q <= 1.
Proof.
  apply (ndsi_in_range (mkPixel 0 0 (Num (3 # 10)) (Num (1 # 10)) (Num 4))
                       (3 # 10) (1 # 10)).
  - reflexivity.
  - reflexivity.
  - discriminate.
  - discriminate.
  - intro H. vm_compute in H. discriminate.
Defined.

(** ** Threshold classification *)

(** C9: classifying an already classified raster again with the same
    cutoff gives the same classes, cell by cell. *)
Theorem classify_idempotent (raster : list cell) :
  map classify (map classify raster) = map classify raster.
Proof.
  induction raster as [|v raster IH]; simpl.
  - reflexivity.
  - f_equal; [|exact IH].
    destruct (classify_cases v) as [[_ H]|[_ H]]; rewrite H; reflexivity.
Qed.

(** C10: the cutoff is exclusive.  A cell whose index equals 0.4 is
    class 0, and a cell is class 1 exactly when its index is strictly
    greater than 0.4. *)
Theorem threshold_exclusive :
  (forall q, q == 4 # 10 -> classify (Num q) = Num 0) /\
  (forall q, classify (Num q) = Num 1 <-> 4 # 10 < q) /\
  (forall q, classify (Num q) = Num 0 <-> q <= 4 # 10) /\
  (forall v, classify v = Num 1 <-> Cell.gt v threshold = true).
Proof.
  assert (Hgen : forall v, classify v = Num 1 <-> Cell.gt v threshold = true).
  { intro v. destruct (classify_cases v) as [[Hg H]|[Hg H]]; rewrite H, Hg; split;
      congruence. }
  assert (Hlt : forall q, classify (Num q) = Num 1 <-> 4 # 10 < q).
  { intro q. rewrite Hgen. unfold threshold. apply gt_num. }
  assert (Hle : forall q, classify (Num q) = Num 0 <-> q <= 4 # 10).
  { intro q. destruct (classify_cases (Num q)) as [[Hg H]|[Hg H]]; rewrite H.
    - apply gt_num in Hg. split; [discriminate|]. intro Hq. exfalso.
      apply (Qlt_not_le _ _ Hg Hq).
    - split; [|reflexivity]. intros _. apply Qnot_lt_le. intro Hq.
      apply gt_num in Hq. unfold threshold in Hg. congruence. }
  repeat split; try apply Hlt; try apply Hle; try apply Hgen.
  intros q Hq. apply Hle. rewrite Hq. apply Qle_refl.
Qed.

(** ** Cloud mask *)

(** C2: where the scene classification is 3, 8 or 9 the composited snow
    map holds class 2, whatever the bands B03 and B11 and hence the
    snow / no-snow class are. *)
Theorem cloud_precedence (p : pixel) :
  Cell.equiv (scl_band p) (Num 3) \/ Cell.equiv (scl_band p) (Num 8) \/
  Cell.equiv (scl_band p) (Num 9) ->
  cloud_mask p = Num 1 /\ snowmap_cloudfree p = Num 2.
Proof.
  intro H. apply is_cloud_spec in H.
  rewrite snowmap_cloudfree_cases, cloud_mask_cases, H. split; reflexivity.
Qed.

Lemma cloud_precedence_witness :
  cloud_mask (mkPixel 0 0 (Num (9 # 10)) (Num (1 # 10)) (Num 9)) = Num 1 /\
  snowmap_cloudfree (mkPixel 0 0 (Num (9 # 10)) (Num (1 # 10)) (Num 9)) = Num 2.
Proof.
  apply (cloud_precedence (mkPixel 0 0 (Num (9 # 10)) (Num (1 # 10)) (Num 9))).
  right; right. simpl. reflexivity.
Defined.

(** ** Polygon mask *)

Lemma class_of_cloudfree (p : pixel) (k : Q) :
  Cell.eq (snowmap_cloudfree p) (Num k) = is_class k p.
Proof. reflexivity. Qed.

(** C8: a cell outside the region geometry holds the no-data value NA
    after [mask_polygon]; NA is none of the classes 0, 1, 2, a cell
    within the geometry keeps its class, and so the cells of each class
    in the masked map are exactly those counted within the geometry. *)
Theorem mask_polygon_outside (geom : geometry) :
  (forall p, within geom p = false -> snowmap_cloudfree_masked geom p = NA) /\
  (forall k, NA <> Num k /\ Cell.eq NA (Num k) = false) /\
  (forall p, within geom p = true ->
     snowmap_cloudfree_masked geom p = snowmap_cloudfree p /\
     snowmap_cloudfree_masked geom p <> NA) /\
  (forall k slice,
     List.length (filter (fun p => Cell.eq (snowmap_cloudfree_masked geom p) (Num k)) slice)
     = count_cells geom (is_class k) slice).
Proof.
  repeat split.
  - intros p H. unfold snowmap_cloudfree_masked, mask_polygon. rewrite H. reflexivity.
  - discriminate.
  - unfold snowmap_cloudfree_masked, mask_polygon. rewrite H. reflexivity.
  - unfold snowmap_cloudfree_masked, mask_polygon. rewrite H.
    destruct (snowmap_cloudfree_class p) as [E|[E|E]]; rewrite E; discriminate.
  - intros k slice. unfold count_cells.
    induction slice as [|p slice IH]; simpl; [reflexivity|].
    unfold snowmap_cloudfree_masked, mask_polygon in *.
    destruct (within geom p); simpl.
    + rewrite class_of_cloudfree. destruct (is_class k p); simpl; rewrite IH; reflexivity.
    + exact IH.
Qed.

(** ** Catchment statistics *)

Lemma sum_count (f : pixel -> bool) (region : list pixel) :
  exists q, sum (map (fun p => Num (if f p then 1 else 0)) region) = Num q /\
            q == inject_Z (Z.of_nat (List.length (filter f region))).
Proof.
  induction region as [|p region IH].
  - exists 0. split; reflexivity.
  - destruct IH as [q [Hs Hq]]. cbn [map sum filter]. rewrite Hs.
    destruct (f p).
    + exists (1 + q). split; [reflexivity|].
      cbn [List.length]. rewrite Nat2Z.inj_succ, <- Z.add_1_l, inject_Z_plus, Hq.
      reflexivity.
    + exists (0 + q). split; [reflexivity|]. rewrite Hq. ring.
Qed.

Lemma above_minus_one_always (p : pixel) : above_minus_one p = true.
Proof.
  unfold above_minus_one.
  destruct (snowmap_cloudfree_class p) as [E|[E|E]]; rewrite E; reflexivity.
Qed.

Lemma is_class_cloud (p : pixel) : is_class 2 p = is_cloud (scl_band p).
Proof.
  unfold is_class. rewrite snowmap_cloudfree_cases.
  destruct (is_cloud (scl_band p)); [reflexivity|].
  unfold snowmap. destruct (classify_cases (ndsi p)) as [[_ H]|[_ H]]; rewrite H; reflexivity.
Qed.

Lemma n_catchment_indicator (p : pixel) :
  n_catchment p = Num (if above_minus_one p then 1 else 0).
Proof. apply of_bool_times_one. Qed.

Lemma n_cloud_indicator (p : pixel) :
  n_cloud p = Num (if is_class 2 p then 1 else 0).
Proof. unfold n_cloud. rewrite cloud_mask_cases, is_class_cloud. reflexivity. Qed.

Lemma n_snow_indicator (p : pixel) :
  n_snow p = Num (if is_class 1 p then 1 else 0).
Proof. apply of_bool_times_one. Qed.

Lemma n_pixels_slice_bands (geom : geometry) (slice : list pixel) :
  n_pixels_slice geom slice =
  [ sum (map n_catchment (filter (within geom) slice));
    sum (map n_cloud (filter (within geom) slice));
    sum (map n_snow (filter (within geom) slice)) ].
Proof. reflexivity. Qed.

(** Every cell within the geometry is in exactly one of the classes. *)
Lemma classes_partition (region : list pixel) :
  (List.length (filter above_minus_one region)
   = List.length (filter (is_class 1) region)
     + List.length (filter (is_class 2) region)
     + List.length (filter (is_class 0) region))%nat.
Proof.
  induction region as [|p region IH]; [reflexivity|].
  cbn [filter]. rewrite above_minus_one_always. unfold is_class in *.
  destruct (snowmap_cloudfree_class p) as [E|[E|E]]; rewrite E; cbn; lia.
Qed.

Lemma n_pixels_slice_counts (geom : geometry) (slice : list pixel) :
  exists tot cloud snow : Q,
    n_pixels_slice geom slice = [Num tot; Num cloud; Num snow] /\
    tot == inject_Z (Z.of_nat (count_cells geom above_minus_one slice)) /\
    cloud == inject_Z (Z.of_nat (count_cells geom (is_class 2) slice)) /\
    snow == inject_Z (Z.of_nat (count_cells geom (is_class 1) slice)).
Proof.
  rewrite n_pixels_slice_bands. unfold count_cells.
  set (region := filter (within geom) slice).
  rewrite (map_ext _ _ n_catchment_indicator),
          (map_ext _ _ n_cloud_indicator), (map_ext _ _ n_snow_indicator).
  destruct (sum_count above_minus_one region) as [tot [Et Ht]].
  destruct (sum_count (is_class 2) region) as [cloud [Ec Hc]].
  destruct (sum_count (is_class 1) region) as [snow [Es Hs]].
  exists tot, cloud, snow. rewrite Et, Ec, Es. auto.
Qed.

(** C1: at every time step the three aggregated values are the pixel
    counts within the catchment of all cells (value > -1), of the cloud
    cells (class 2) and of the snow cells (class 1), and the total is the
    sum of the snow, cloud and no-snow (class 0) counts. *)
Theorem closed_partition (geom : geometry) (s2 : datacube) (t : string) (slice : list pixel) :
  In (t, slice) s2 ->
  exists tot cloud snow : Q,
    In (t, [[Num tot; Num cloud; Num snow]]) (n_pixels geom s2) /\
    tot == inject_Z (Z.of_nat (count_cells geom above_minus_one slice)) /\
    cloud == inject_Z (Z.of_nat (count_cells geom (is_class 2) slice)) /\
    snow == inject_Z (Z.of_nat (count_cells geom (is_class 1) slice)) /\
    tot == snow + cloud + inject_Z (Z.of_nat (count_cells geom (is_class 0) slice)).
Proof.
  intro Hin.
  destruct (n_pixels_slice_counts geom slice) as [tot [cloud [snow [E [Ht [Hc Hs]]]]]].
  exists tot, cloud, snow. repeat split; try assumption.
  - unfold n_pixels. rewrite <- E.
    change (t, [n_pixels_slice geom slice])
      with ((fun ts : string * list pixel => (fst ts, [n_pixels_slice geom (snd ts)])) (t, slice)).
    apply in_map. exact Hin.
  - rewrite Ht, Hc, Hs. unfold count_cells.
    rewrite classes_partition, !Nat2Z.inj_add, !inject_Z_plus. reflexivity.
Qed.

Lemma closed_partition_witness :
  exists tot cloud snow : Q,
    In ("2018-02-10T00:00:00Z"%string, [[Num tot; Num cloud; Num snow]])
       (n_pixels Sample.catchment Sample.cube) /\
    tot == inject_Z (Z.of_nat (count_cells Sample.catchment above_minus_one Sample.mixed_slice)) /\
    cloud == inject_Z (Z.of_nat (count_cells Sample.catchment (is_class 2) Sample.mixed_slice)) /\
    snow == inject_Z (Z.of_nat (count_cells Sample.catchment (is_class 1) Sample.mixed_slice)) /\
    tot == snow + cloud
           + inject_Z (Z.of_nat (count_cells Sample.catchment (is_class 0) Sample.mixed_slice)).
Proof.
  apply (closed_partition Sample.catchment Sample.cube
           "2018-02-10T00:00:00Z"%string Sample.mixed_slice).
  simpl. left. reflexivity.
Defined.

Example mixed_slice_counts :
  n_pixels_slice Sample.catchment Sample.mixed_slice = [Num 3; Num 1; Num 1].
Proof. vm_compute. reflexivity. Qed.

(** ** A region without a valid cell *)

Lemma filter_all {A : Type} (f : A -> bool) (l : list A) :
  (forall x, In x l -> f x = true) -> filter f l = l.
Proof.
  induction l as [|a l IH]; intro H; simpl; [reflexivity|].
  rewrite (H a (or_introl Logic.eq_refl)). f_equal. apply IH.
  intros x Hx. apply H. right. exact Hx.
Qed.

Lemma filter_none {A : Type} (f : A -> bool) (l : list A) :
  (forall x, In x l -> f x = false) -> filter f l = [].
Proof.
  induction l as [|a l IH]; intro H; simpl; [reflexivity|].
  rewrite (H a (or_introl Logic.eq_refl)). apply IH.
  intros x Hx. apply H. right. exact Hx.
Qed.






(** ** Cloud filtering of the time series *)

Lemma filter_rows_of_frame (f : row -> bool) (df : dataframe) :
  Rows_of_frame (filter f df) df.
Proof.
  induction df as [|r df IH]; simpl.
  - constructor.
  - destruct (f r); constructor; exact IH.
Qed.

Lemma filter_split_length (f : row -> bool) (df : dataframe) :
  (List.length (filter f df) + List.length (filter (fun r => negb (f r)) df)
   = List.length df)%nat.
Proof.
  induction df as [|r df IH]; simpl; [reflexivity|].
  destruct (f r); simpl; lia.
Qed.

(** C3: the filtered frame holds exactly the rows of the frame whose
    cloud percentage is below 25, each one whole and unchanged and in the
    order of the frame; a frame of 10 rows of which 3 are not below the
    threshold keeps 7. *)
Theorem df_filtered_retains (df : dataframe) :
  (forall r, In r (df_filtered df) <->
             In r df /\ Cell.lt (perc_cloud r) (Num 25) = true) /\
  Rows_of_frame (df_filtered df) df /\
  (List.length (df_filtered df) + List.length (filter over_threshold df)
   = List.length df)%nat /\
  (List.length df = 10%nat -> List.length (filter over_threshold df) = 3%nat ->
   List.length (df_filtered df) = 7%nat).
Proof.
  assert (Hlen := filter_split_length below_threshold df).
  split; [|split; [|split]].
  - intro r. unfold df_filtered. rewrite filter_In. reflexivity.
  - apply filter_rows_of_frame.
  - exact Hlen.
  - intros H10 H3. unfold df_filtered, over_threshold in *. lia.
Qed.

Lemma df_filtered_retains_witness :
  List.length (df_filtered Sample.frame) = 7%nat.
Proof.
  apply (proj2 (proj2 (proj2 (df_filtered_retains Sample.frame)))).
  - vm_compute. reflexivity.
  - vm_compute. reflexivity.
Defined.

(** Filtering a second time changes nothing. *)
Lemma df_filtered_idempotent (df : dataframe) :
  df_filtered (df_filtered df) = df_filtered df.
Proof.
  unfold df_filtered. apply filter_all.
  intros r H. apply filter_In in H. exact (proj2 H).
Qed.

(** ** Station records on the dates of the snow map *)

Lemma isin_In (x : string) (dates : list string) : isin x dates = true <-> In x dates.
Proof.
  unfold isin. rewrite existsb_exists. split.
  - intros [d [Hd He]]. apply String.eqb_eq in He. subst. exact Hd.
  - intro H. exists x. split; [exact H | apply String.eqb_refl].
Qed.

Lemma station_on_dates_In (name : string) (dates : list string)
    (gdf : list station_record) (r : station_record) :
  In r (station_on_dates name dates gdf) <->
  In r gdf /\ Name r = name /\ In (id r) dates.
Proof.
  unfold station_on_dates, query_name.
  rewrite !filter_In, isin_In, String.eqb_eq. tauto.
Qed.

(** X18: of a station's records exactly those are kept whose date is one
    of the dates of the snow-map series, and a record on any other date
    is dropped. *)
Theorem station_on_dates_exact (name : string)
    (snow_time_series : timeseries) (gdf : list station_record) :
  (forall r, In r (station_on_dates name (dates_of snow_time_series) gdf) <->
             In r gdf /\ Name r = name /\
             exists k v, In (k, v) snow_time_series /\ split_T_0 k = id r) /\
  (forall r, In r gdf ->
             (forall k v, In (k, v) snow_time_series -> split_T_0 k <> id r) ->
             ~ In r (station_on_dates name (dates_of snow_time_series) gdf)).
Proof.
  assert (Hdates : forall d, In d (dates_of snow_time_series) <->
                             exists k v, In (k, v) snow_time_series /\ split_T_0 k = d).
  { intro d. unfold dates_of. rewrite in_map_iff. split.
    - intros [[k v] [He Hin]]. exists k, v. split; assumption.
    - intros [k [v [Hin He]]]. exists (k, v). split; assumption. }
  assert (Hkeep : forall r,
            In r (station_on_dates name (dates_of snow_time_series) gdf) <->
            In r gdf /\ Name r = name /\
            exists k v, In (k, v) snow_time_series /\ split_T_0 k = id r).
  { intro r. rewrite station_on_dates_In, Hdates. reflexivity. }
  split; [exact Hkeep|].
  intros r _ Hno Hin. apply Hkeep in Hin.
  destruct Hin as [_ [_ [k [v [Hkv He]]]]]. exact (Hno k v Hkv He).
Qed.

Lemma station_on_dates_exact_witness :
  ~ In (mkStation "Plata_Osservatore" "2018-02-11" (Num 34) (Num 1))
       (station_on_dates "Plata_Osservatore"
          (dates_of Sample.snow_time_series) Sample.stations).
Proof.
  apply (proj2 (station_on_dates_exact "Plata_Osservatore"
                  Sample.snow_time_series Sample.stations)).
  - simpl. auto.
  - intros k v Hin. simpl in Hin.
    destruct Hin as [H|[H|H]]; [| |contradiction];
      injection H as <- _; vm_compute; discriminate.
Defined.




Example plata_on_dates :
  station_on_dates "Plata_Osservatore" (dates_of Sample.snow_time_series) Sample.stations
  = [ mkStation "Plata_Osservatore" "2018-02-10" (Num 35) (Num 1);
      mkStation "Plata_Osservatore" "2018-02-15" (Num 0) (Num 0) ].
Proof. reflexivity. Qed.

(** ** Validation metrics *)

Lemma confusion_no_truth (pairs : list (cell * cell)) :
  (forall p, In p pairs -> fst p = NA) -> confusion pairs = mkConfusion 0 0 0 0.
Proof.
  induction pairs as [|[truth derived] pairs IH]; intro H; simpl; [reflexivity|].
  assert (Ht : truth = NA) by (apply (H (truth, derived)); left; reflexivity).
  subst truth. simpl. apply IH. intros p Hp. apply H. right. exact Hp.
Qed.

(** C6: when the ground truth of a station is missing at every time step
    that is compared, the confusion matrix is empty and the accuracy is
    the undefined value NA, which is not the number 0; the computation
    returns for every input. *)
Theorem accuracy_undefined_without_truth
    (station : list station_record) (cube_snow : list cell) :
  (forall r, In r station -> snow_presence r = NA) ->
  fst (validation_metrics (assign_site_snow station cube_snow)) = NA /\
  total (snd (validation_metrics (assign_site_snow station cube_snow))) = 0%nat /\
  ~ Cell.equiv (fst (validation_metrics (assign_site_snow station cube_snow))) (Num 0).
Proof.
  intro Hna.
  assert (Hcm : confusion (assign_site_snow station cube_snow) = mkConfusion 0 0 0 0).
  { apply confusion_no_truth. intros [truth derived] Hin. simpl.
    unfold assign_site_snow in Hin. apply in_combine_l in Hin.
    apply in_map_iff in Hin. destruct Hin as [r [Hr Hin]].
    rewrite <- Hr. apply Hna. exact Hin. }
  unfold validation_metrics. rewrite Hcm. simpl. repeat split; auto.
Qed.

Lemma accuracy_undefined_without_truth_witness :
  fst (validation_metrics
         (assign_site_snow
            (station_on_dates "S_Leonardo_in_Passiria_Osservatore"
               (dates_of Sample.snow_time_series) Sample.stations)
            [Num 1; Num 0])) = NA.
Proof.
  apply (accuracy_undefined_without_truth
           (station_on_dates "S_Leonardo_in_Passiria_Osservatore"
              (dates_of Sample.snow_time_series) Sample.stations)
           [Num 1; Num 0]).
  intros r Hin. simpl in Hin.
  destruct Hin as [H|[H|H]]; [| |contradiction]; subst r; reflexivity.
Defined.

(** The validation scenario of four common time steps: ground truth
    1,1,0,0 against the derived 1,0,0,0. *)
Example four_steps_metrics :
  validation_metrics [(Num 1, Num 1); (Num 1, Num 0); (Num 0, Num 0); (Num 0, Num 0)]
  = (Num (3 # 4), mkConfusion 1 0 2 1).
Proof. vm_compute. reflexivity. Qed.

(** ** Witnesses of the remaining statements *)

Lemma threshold_exclusive_witness :
  classify (Num (2 # 5)) = Num 0 /\ classify (Num (41 # 100)) = Num 1.
Proof.
  split.
  - apply (proj1 threshold_exclusive (2 # 5)). reflexivity.
  - apply (proj1 (proj2 threshold_exclusive) (41 # 100)). reflexivity.
Defined.

Lemma mask_polygon_outside_witness :
  snowmap_cloudfree_masked Sample.catchment (Sample.snowy 3) = NA.
Proof.
  apply (proj1 (mask_polygon_outside Sample.catchment) (Sample.snowy 3)).
  reflexivity.
Defined.

(** * Further properties of the notebooks' code *)

(** ** Sorting the frame by time *)

Lemma insert_row_perm (r : row) (df : dataframe) :
  Permutation (r :: df) (insert_row r df).
Proof.
  induction df as [|a df IH]; simpl.
  - apply Permutation_refl.
  - destruct (String.leb (time r) (time a)).
    + apply Permutation_refl.
    + eapply perm_trans; [apply perm_swap|]. apply perm_skip. exact IH.
Qed.

Lemma insert_row_hd (r a : row) (df : dataframe) :
  HdRel (fun x y => String.leb (time x) (time y) = true) a df ->
  String.leb (time a) (time r) = true ->
  HdRel (fun x y => String.leb (time x) (time y) = true) a (insert_row r df).
Proof.
  intros Hd Har. destruct df as [|b df]; simpl.
  - constructor. exact Har.
  - destruct (String.leb (time r) (time b)); constructor.
    + exact Har.
    + inversion Hd. assumption.
Qed.

Lemma insert_row_sorted (r : row) (df : dataframe) :
  Sorted (fun x y => String.leb (time x) (time y) = true) df ->
  Sorted (fun x y => String.leb (time x) (time y) = true) (insert_row r df).
Proof.
  induction 1 as [|a df Hs IH Hd]; simpl.
  - constructor; constructor.
  - destruct (String.leb (time r) (time a)) eqn:E.
    + constructor; [constructor; assumption|]. constructor. exact E.
    + constructor; [exact IH|]. apply insert_row_hd; [exact Hd|].
      destruct (String.leb_total (time r) (time a)) as [H|H]; [congruence|exact H].
Qed.

Lemma sort_values_ordered (df : dataframe) :
  Sorted (fun x y => String.leb (time x) (time y) = true) (sort_values df) /\
  Permutation df (sort_values df).
Proof.
  unfold sort_values. induction df as [|r df [IHs IHp]]; simpl.
  - split; constructor.
  - split.
    + apply insert_row_sorted. exact IHs.
    + eapply perm_trans; [apply perm_skip; exact IHp|]. apply insert_row_perm.
Qed.

(** X1: [df.sort_values(by="time")] returns the rows of the frame, each
    exactly once, in ascending order of their time stamps. *)
Theorem sort_values_sorted (df : dataframe) :
  Sorted (fun x y => String.leb (time x) (time y) = true) (sort_values df) /\
  Permutation df (sort_values df) /\
  List.length (sort_values df) = List.length df.
Proof.
  destruct (sort_values_ordered df) as [Hs Hp].
  split; [exact Hs|]. split; [exact Hp|].
  symmetry. apply Permutation_length. exact Hp.
Qed.

(** ** Assembling the frame from the exported JSON *)

Lemma item_some (v : list (list cell)) (i : nat) (x : cell) :
  item v i = Some x <-> exists bands more, v = bands :: more /\ nth_error bands i = Some x.
Proof.
  unfold item. destruct v as [|bands more]; simpl.
  - split; [discriminate|]. intros [b [m [H _]]]. discriminate.
  - split.
    + intro H. exists bands, more. split; [reflexivity|exact H].
    + intros [b [m [H Hn]]]. injection H as <- <-. exact Hn.
Qed.

Lemma row_of_some_iff (e : string * list (list cell)) :
  (exists r, row_of e = Some r) <->
  exists c cl sn rest more, snd e = (c :: cl :: sn :: rest) :: more.
Proof.
  unfold row_of, item. destruct e as [t v]. simpl. split.
  - intros [r H]. destruct v as [|bands more]; simpl in H; [discriminate|].
    destruct bands as [|c [|cl [|sn rest]]]; simpl in H; try discriminate.
    exists c, cl, sn, rest, more. reflexivity.
  - intros [c [cl [sn [rest [more H]]]]]. subst v. simpl. eexists. reflexivity.
Qed.

Lemma rows_of_some_iff (j : timeseries) :
  (exists df, rows_of j = Some df) <->
  Forall (fun e => exists c cl sn rest more, snd e = (c :: cl :: sn :: rest) :: more) j.
Proof.
  induction j as [|e j IH]; simpl.
  - split; [constructor | intros _; eexists; reflexivity].
  - split.
    + intros [df H]. destruct (row_of e) as [r|] eqn:Er; [|discriminate].
      destruct (rows_of j) as [rs|] eqn:Ers; [|discriminate].
      constructor.
      * apply row_of_some_iff. exists r. exact Er.
      * apply IH. exists rs. reflexivity.
    + intro HF. inversion HF as [|e' j' He Hj]; subst.
      apply row_of_some_iff in He. destruct He as [r Er].
      apply IH in Hj. destruct Hj as [rs Ers].
      rewrite Er, Ers. eexists. reflexivity.
Qed.

Lemma row_of_time (e : string * list (list cell)) (r : row) :
  row_of e = Some r -> time r = fst e.
Proof.
  unfold row_of. destruct (item (snd e) 0), (item (snd e) 1), (item (snd e) 2);
    try discriminate. intro H. injection H as <-. reflexivity.
Qed.

Lemma rows_of_rows (j : timeseries) (df : dataframe) :
  rows_of j = Some df -> Forall2 (fun e r => row_of e = Some r) j df.
Proof.
  revert df. induction j as [|e j IH]; simpl; intros df H.
  - injection H as <-. constructor.
  - destruct (row_of e) as [r|] eqn:Er; [|discriminate].
    destruct (rows_of j) as [rs|] eqn:Ers; [|discriminate].
    injection H as <-. constructor; [exact Er | apply IH; reflexivity].
Qed.

Lemma rows_of_times (j : timeseries) (df : dataframe) :
  rows_of j = Some df -> map time df = map fst j.
Proof.
  intro H. apply rows_of_rows in H.
  induction H as [|e r j df Hr _ IH]; simpl; [reflexivity|].
  rewrite IH, (row_of_time e r Hr). reflexivity.
Qed.

Lemma df_of_cases (n_pixels_json : timeseries) :
  ((exists df, df_of n_pixels_json = Some df) <->
   Forall (fun e => exists c cl sn rest more, snd e = (c :: cl :: sn :: rest) :: more)
          n_pixels_json) /\
  (forall df, df_of n_pixels_json = Some df ->
     List.length df = List.length n_pixels_json /\
     Permutation (map fst n_pixels_json) (map time df) /\
     Sorted (fun x y => String.leb (time x) (time y) = true) df /\
     forall r, In r df -> exists e, In e n_pixels_json /\ row_of e = Some r).
Proof.
  split.
  - rewrite <- rows_of_some_iff. unfold df_of. split.
    + intros [df H]. destruct (rows_of n_pixels_json) as [rs|]; [|discriminate].
      exists rs. reflexivity.
    + intros [rs H]. rewrite H. eexists. reflexivity.
  - intros df H. unfold df_of in H.
    destruct (rows_of n_pixels_json) as [rs|] eqn:Ers; [|discriminate].
    simpl in H. injection H as <-.
    destruct (sort_values_ordered rs) as [Hs Hp].
    split; [|split; [|split]].
    + rewrite <- (Permutation_length Hp), <- (length_map fst n_pixels_json),
        <- (rows_of_times _ _ Ers). symmetry. apply length_map.
    + rewrite <- (rows_of_times _ _ Ers). apply Permutation_map. exact Hp.
    + exact Hs.
    + intros r Hin. apply (Permutation_in _ (Permutation_sym Hp)) in Hin.
      apply rows_of_rows in Ers. clear Hs Hp.
      induction Ers as [|e r' j df Hr _ IH]; [contradiction|].
      destruct Hin as [->|Hin].
      * exists e. split; [left; reflexivity|exact Hr].
      * destruct (IH Hin) as [e' [He' Hr']]. exists e'. split; [right; exact He'|exact Hr'].
Qed.

(** X2: When an entry of the JSON mapping holds fewer than three values
    for its first geometry, or no geometry, no frame is built: an index
    is out of range.  A frame that is built has one row per key of the
    mapping, each row comes from one entry, and its time stamps are the
    keys, sorted.  The keys are taken to be time stamps of one ISO
    format; parsing them is not modelled. *)
Theorem df_of_defined (n_pixels_json : timeseries) :
  (forall e, In e n_pixels_json ->
     (forall c cl sn rest more, snd e <> (c :: cl :: sn :: rest) :: more) ->
     df_of n_pixels_json = None) /\
  (forall df, df_of n_pixels_json = Some df ->
     Forall (fun e => exists c cl sn rest more, snd e = (c :: cl :: sn :: rest) :: more)
            n_pixels_json /\
     List.length df = List.length n_pixels_json /\
     Permutation (map fst n_pixels_json) (map time df) /\
     Sorted (fun x y => String.leb (time x) (time y) = true) df /\
     forall r, In r df -> exists e, In e n_pixels_json /\ row_of e = Some r).
Proof.
  destruct (df_of_cases n_pixels_json) as [Hdef Hprop].
  assert (Hwf : forall df, df_of n_pixels_json = Some df ->
            Forall (fun e => exists c cl sn rest more,
                      snd e = (c :: cl :: sn :: rest) :: more) n_pixels_json).
  { intros df H. apply Hdef. exists df. exact H. }
  split.
  - intros e He Hbad. destruct (df_of n_pixels_json) as [df|] eqn:E; [|reflexivity].
    exfalso. specialize (Hwf df Logic.eq_refl). rewrite Forall_forall in Hwf.
    destruct (Hwf e He) as [c [cl [sn [rest [more H]]]]].
    exact (Hbad c cl sn rest more H).
  - intros df H. split; [apply (Hwf df H) | apply (Hprop df H)].
Qed.

Lemma df_of_defined_witness :
  df_of [("2018-02-10T00:00:00Z"%string, [[Num 5; Num 1]])] = None.
Proof.
  apply (proj1 (df_of_defined [("2018-02-10T00:00:00Z"%string, [[Num 5; Num 1]])])
               ("2018-02-10T00:00:00Z"%string, [[Num 5; Num 1]])).
  - left. reflexivity.
  - intros c cl sn rest more H. discriminate H.
Defined.

(** ** The frame of the catchment statistics *)

Lemma n_pixels_entries (geom : geometry) (s2 : datacube) (e : string * list (list cell)) :
  In e (n_pixels geom s2) <->
  exists t slice, In (t, slice) s2 /\ e = (t, [n_pixels_slice geom slice]).
Proof.
  unfold n_pixels. rewrite in_map_iff. split.
  - intros [[t slice] [He Hin]]. exists t, slice. split; [exact Hin|]. symmetry. exact He.
  - intros [t [slice [Hin He]]]. exists (t, slice). split; [symmetry; exact He|exact Hin].
Qed.

(** X3: The exported catchment statistics can always be assembled: every
    index the notebook reads is in range, the frame has one row per time
    step of the cube, and each row holds the three counts of one time
    step. *)
Theorem catchment_frame (geom : geometry) (s2 : datacube) :
  exists df,
    df_of (n_pixels geom s2) = Some df /\
    List.length df = List.length s2 /\
    Permutation (map fst s2) (map time df) /\
    forall r, In r df ->
      exists t slice, In (t, slice) s2 /\
                      row_of (t, [n_pixels_slice geom slice]) = Some r.
Proof.
  destruct (df_of_cases (n_pixels geom s2)) as [Hdef Hprop].
  assert (Hex : exists df, df_of (n_pixels geom s2) = Some df).
  { apply Hdef. apply Forall_forall. intros e He.
    apply n_pixels_entries in He. destruct He as [t [slice [_ ->]]].
    destruct (n_pixels_slice_counts geom slice) as [tot [cloud [snow [E _]]]].
    simpl. rewrite E. exists (Num tot), (Num cloud), (Num snow), [], []. reflexivity. }
  destruct Hex as [df Hdf]. exists df. split; [exact Hdf|].
  destruct (Hprop df Hdf) as [Hlen [Hperm [_ Hrows]]].
  split; [|split].
  - rewrite Hlen. unfold n_pixels. apply length_map.
  - unfold n_pixels in Hperm. rewrite map_map in Hperm. simpl in Hperm. exact Hperm.
  - intros r Hin. destruct (Hrows r Hin) as [e [He Hr]].
    apply n_pixels_entries in He. destruct He as [t [slice [Hs ->]]].
    exists t, slice. split; assumption.
Qed.

Lemma percentage_finite (x t : Q) :
  0 < t -> percentage (Num x) (Num t) = Num (x / t * 100).
Proof.
  intro Ht. unfold percentage. simpl.
  destruct (Qeq_bool t 0) eqn:E; [|reflexivity].
  apply Qeq_bool_iff in E. rewrite E in Ht. discriminate.
Qed.

Lemma share_bounds (x y t : Q) :
  0 <= x -> 0 <= y -> x + y <= t -> 0 < t ->
  0 <= x / t * 100 /\ 0 <= y / t * 100 /\ x / t * 100 + y / t * 100 <= 100.
Proof.
  intros Hx Hy Hxy Ht.
  assert (Hux : 0 <= x / t) by (apply Qle_shift_div_l; [exact Ht | lra]).
  assert (Huy : 0 <= y / t) by (apply Qle_shift_div_l; [exact Ht | lra]).
  assert (Hsum : x / t + y / t <= 1).
  { assert (E : x / t + y / t == (x + y) / t).
    { field. intro H0. rewrite H0 in Ht. discriminate. }
    rewrite E. apply Qle_shift_div_r; [exact Ht | lra]. }
  repeat split; lra.
Qed.

(** X4: At a time step whose catchment holds at least one cell, the cloud
    count and the snow count are not negative and together at most the
    total count, and the cloud and the snow percentage are finite
    numbers that each lie between 0 and 100. *)
Theorem percentages_in_range (geom : geometry) (slice : list pixel) (t : string) :
  (exists p, In p slice /\ within geom p = true) ->
  exists r tot cl sn pc ps,
    row_of (t, [n_pixels_slice geom slice]) = Some r /\
    n_catchment_vals r = Num tot /\ n_cloud_vals r = Num cl /\ n_snow_vals r = Num sn /\
    perc_cloud r = Num pc /\ perc_snow r = Num ps /\
    0 <= cl /\ 0 <= sn /\ cl + sn <= tot /\
    0 <= pc /\ pc <= 100 /\ 0 <= ps /\ ps <= 100.
Proof.
  intros [p0 [Hin0 Hw0]].
  destruct (n_pixels_slice_counts geom slice) as [tot [cloud [snow [E [Ht [Hc Hs]]]]]].
  assert (Hpart := classes_partition (filter (within geom) slice)).
  unfold count_cells in *.
  set (region := filter (within geom) slice) in *.
  rewrite (filter_all above_minus_one region) in Ht, Hpart
    by (intros; apply above_minus_one_always).
  assert (Hlen : (0 < List.length region)%nat).
  { assert (Hp0 : In p0 region) by (apply filter_In; split; assumption).
    destruct region; [contradiction | simpl; lia]. }
  assert (Hpos : 0 < tot).
  { rewrite Ht. change 0 with (inject_Z 0). rewrite <- Zlt_Qlt. lia. }
  assert (Hc0 : 0 <= cloud).
  { rewrite Hc. change 0 with (inject_Z 0). rewrite <- Zle_Qle. lia. }
  assert (Hs0 : 0 <= snow).
  { rewrite Hs. change 0 with (inject_Z 0). rewrite <- Zle_Qle. lia. }
  assert (Hsum : cloud + snow <= tot).
  { rewrite Hc, Hs, Ht, <- inject_Z_plus, <- Zle_Qle. lia. }
  destruct (share_bounds cloud snow tot Hc0 Hs0 Hsum Hpos) as [Hpc [Hps Hboth]].
  rewrite E. unfold row_of. simpl.
  rewrite (percentage_finite cloud tot Hpos), (percentage_finite snow tot Hpos).
  eexists. exists tot, cloud, snow, (cloud / tot * 100), (snow / tot * 100).
  repeat (split; [reflexivity|]).
  repeat split; try assumption; lra.
Qed.

Lemma percentages_in_range_witness :
  exists r tot cl sn pc ps,
    row_of ("2018-02-10T00:00:00Z"%string,
            [n_pixels_slice Sample.catchment Sample.mixed_slice]) = Some r /\
    n_catchment_vals r = Num tot /\ n_cloud_vals r = Num cl /\ n_snow_vals r = Num sn /\
    perc_cloud r = Num pc /\ perc_snow r = Num ps /\
    0 <= cl /\ 0 <= sn /\ cl + sn <= tot /\
    0 <= pc /\ pc <= 100 /\ 0 <= ps /\ ps <= 100.
Proof.
  apply (percentages_in_range Sample.catchment Sample.mixed_slice).
  exists (Sample.snowy 0). split; [simpl; auto | reflexivity].
Defined.

(** X5: A time step whose total pixel count is zero has no finite cloud
    percentage (0/0 or x/0), and the cloud filter removes it. *)
Theorem zero_total_removed (e : string * list (list cell)) (r : row) (c cl : Q) :
  row_of e = Some r ->
  n_catchment_vals r = Num c -> n_cloud_vals r = Num cl ->
  c == 0 -> 0 <= cl ->
  (forall q, perc_cloud r <> Num q) /\ below_threshold r = false /\
  forall df, ~ In r (df_filtered df).
Proof.
  intros Hr Hc Hcl Hc0 Hcl0.
  unfold row_of in Hr.
  destruct (item (snd e) 0) as [c'|]; [|discriminate].
  destruct (item (snd e) 1) as [cl'|]; [|discriminate].
  destruct (item (snd e) 2) as [sn'|]; [|discriminate].
  injection Hr as <-. simpl in Hc, Hcl. subst c' cl'.
  assert (Hperc : percentage (Num cl) (Num c) = NA \/ percentage (Num cl) (Num c) = PInf).
  { unfold percentage. simpl.
    destruct (Qeq_bool c 0) eqn:E.
    - unfold Cell.sgn. destruct (cl ?= 0) eqn:Ecmp; simpl.
      + left. reflexivity.
      + exfalso. apply Qlt_alt in Ecmp. lra.
      + right. reflexivity.
    - exfalso. rewrite <- Bool.not_true_iff_false in E. apply E.
      apply Qeq_bool_iff. exact Hc0. }
  assert (Hb : below_threshold
                 (mkRow (fst e) (Num c) (Num cl) sn'
                        (percentage (Num cl) (Num c)) (percentage sn' (Num c))) = false).
  { unfold below_threshold. cbn [perc_cloud].
    destruct Hperc as [-> | ->]; reflexivity. }
  split; [|split].
  - cbn [perc_cloud]. intros q Hq. destruct Hperc as [H|H]; rewrite H in Hq; discriminate.
  - exact Hb.
  - intros df Hin. unfold df_filtered in Hin. apply filter_In in Hin.
    destruct Hin as [_ Hin]. rewrite Hb in Hin. discriminate.
Qed.

Lemma zero_total_removed_witness :
  below_threshold
    (mkRow "2018-02-10T00:00:00Z" (Num 0) (Num 0) (Num 0)
           (percentage (Num 0) (Num 0)) (percentage (Num 0) (Num 0))) = false.
Proof.
  apply (proj1 (proj2 (zero_total_removed
           ("2018-02-10T00:00:00Z"%string, [[Num 0; Num 0; Num 0]])
           (mkRow "2018-02-10T00:00:00Z" (Num 0) (Num 0) (Num 0)
                  (percentage (Num 0) (Num 0)) (percentage (Num 0) (Num 0)))
           0 0 (Logic.eq_refl _) (Logic.eq_refl _) (Logic.eq_refl _)
           (Qeq_refl 0) (Qle_refl 0)))).
Defined.

(** ** The snow criterion in terms of the two bands *)

Lemma ndsi_above_threshold (g s : Q) :
  0 < g + s -> (4 # 10 < (g + - s) / (g + s) <-> 7 * s < 3 * g).
Proof.
  intro Hpos. split; intro H.
  - assert (E : (g + - s) / (g + s) * (g + s) == g + - s).
    { field. intro H0. rewrite H0 in Hpos. discriminate. }
    assert (Hm : (4 # 10) * (g + s) < (g + - s) / (g + s) * (g + s)).
    { apply Qmult_lt_compat_r; assumption. }
    rewrite E in Hm. lra.
  - apply Qlt_shift_div_l; [exact Hpos | lra].
Qed.

Lemma classify_num (q : Q) :
  (classify (Num q) = Num 1 <-> 4 # 10 < q) /\
  (classify (Num q) = Num 0 <-> q <= 4 # 10).
Proof.
  destruct (classify_cases (Num q)) as [[Hg H]|[Hg H]]; rewrite H;
    unfold threshold in Hg.
  - apply gt_num in Hg. split; split; intro H'; try reflexivity; try exact Hg.
    + discriminate.
    + exfalso. apply (Qlt_not_le _ _ Hg H').
  - assert (Hle : q <= 4 # 10).
    { apply Qnot_lt_le. intro Hq. apply gt_num in Hq. congruence. }
    split; split; intro H'; try reflexivity; try exact Hle.
    + discriminate.
    + exfalso. apply (Qlt_not_le _ _ H' Hle).
Qed.

(** X7: For integer band values (digital numbers below 65536) that are
    not both zero, a cell is classified as snow when
    3 * green > 7 * swir and as no snow when 3 * green < 7 * swir. *)
Theorem snow_iff_band_ratio (p : pixel) (g s : Z) :
  green p = Num (inject_Z g) -> swir p = Num (inject_Z s) ->
  (0 <= g < 65536)%Z -> (0 <= s < 65536)%Z -> (0 < g + s)%Z ->
  ((7 * s < 3 * g)%Z -> snowmap p = Num 1) /\
  ((3 * g < 7 * s)%Z -> snowmap p = Num 0).
Proof.
  intros Eg Es Hg Hs Hsum.
  assert (Hpos : 0 < inject_Z g + inject_Z s).
  { rewrite <- inject_Z_plus. change 0 with (inject_Z 0). rewrite <- Zlt_Qlt. exact Hsum. }
  assert (Hne : ~ inject_Z g + inject_Z s == 0)
    by (intro H0; rewrite H0 in Hpos; discriminate).
  assert (Hq : forall a b : Z, (a < b)%Z -> inject_Z a < inject_Z b)
    by (intros a b H; rewrite <- Zlt_Qlt; exact H).
  unfold snowmap, ndsi. rewrite Eg, Es, (ndsi_of_finite _ _ Hne).
  destruct (classify_num ((inject_Z g + - inject_Z s) / (inject_Z g + inject_Z s)))
    as [Hgt Hle].
  split; intro H; apply Hq in H; rewrite !inject_Z_mult in H.
  - apply Hgt. apply ndsi_above_threshold; [exact Hpos | exact H].
  - apply Hle. apply Qnot_lt_le. intro Hc.
    apply (ndsi_above_threshold _ _ Hpos) in Hc.
    change (inject_Z 7) with 7 in H. change (inject_Z 3) with 3 in H. lra.
Qed.

Lemma snow_iff_band_ratio_witness :
  snowmap (mkPixel 0 0 (Num (inject_Z 3000)) (Num (inject_Z 1000)) (Num 11)) = Num 1.
Proof.
  refine (proj1 (snow_iff_band_ratio
                   (mkPixel 0 0 (Num (inject_Z 3000)) (Num (inject_Z 1000)) (Num 11))
                   3000 1000 (Logic.eq_refl _) (Logic.eq_refl _) _ _ _) _); lia.
Defined.

(** ** Dates of the time stamps *)

Lemma split_T_0_before (d rest : string) :
  ~ In "T"%char (chars d) -> split_T_0 (d ++ String "T" rest) = d.
Proof.
  induction d as [|c d IH]; simpl; intro H.
  - reflexivity.
  - destruct (Ascii.eqb c "T") eqn:E.
    + apply Ascii.eqb_eq in E. exfalso. apply H. left. exact E.
    + f_equal. apply IH. intro Hin. apply H. right. exact Hin.
Qed.

Lemma split_T_0_without (k : string) :
  ~ In "T"%char (chars k) -> split_T_0 k = k.
Proof.
  induction k as [|c k IH]; simpl; intro H.
  - reflexivity.
  - destruct (Ascii.eqb c "T") eqn:E.
    + apply Ascii.eqb_eq in E. exfalso. apply H. left. exact E.
    + f_equal. apply IH. intro Hin. apply H. right. exact Hin.
Qed.

Lemma split_T_0_no_T (k : string) : ~ In "T"%char (chars (split_T_0 k)).
Proof.
  induction k as [|c k IH]; simpl.
  - tauto.
  - destruct (Ascii.eqb c "T") eqn:E; simpl.
    + tauto.
    + intros [H|H]; [|exact (IH H)].
      rewrite <- H, Ascii.eqb_refl in E. discriminate.
Qed.

Lemma split_T_0_prefix (k : string) : exists rest, k = (split_T_0 k ++ rest)%string.
Proof.
  induction k as [|c k [rest IH]]; simpl.
  - exists EmptyString. reflexivity.
  - destruct (Ascii.eqb c "T").
    + exists (String c k). reflexivity.
    + exists rest. simpl. f_equal. exact IH.
Qed.

(** X8: [k.split("T")[0]] is the part of [k] before its first 'T': a date
    followed by 'T' and a time of day gives back the date, a string
    without 'T' is returned whole, and the result is always a prefix of
    [k] that holds no 'T'. *)
Theorem split_T_0_date :
  (forall d rest, ~ In "T"%char (chars d) -> split_T_0 (d ++ String "T" rest) = d) /\
  (forall k, ~ In "T"%char (chars k) -> split_T_0 k = k) /\
  (forall k, ~ In "T"%char (chars (split_T_0 k))) /\
  (forall k, exists rest, k = (split_T_0 k ++ rest)%string) /\
  (forall k, split_T_0 (split_T_0 k) = split_T_0 k).
Proof.
  split; [exact split_T_0_before|]. split; [exact split_T_0_without|].
  split; [exact split_T_0_no_T|]. split; [exact split_T_0_prefix|].
  intro k. apply split_T_0_without, split_T_0_no_T.
Qed.

Lemma split_T_0_date_witness :
  split_T_0 ("2018-02-10" ++ String "T" "00:00:00Z") = "2018-02-10"%string.
Proof.
  apply (proj1 split_T_0_date "2018-02-10"%string "00:00:00Z"%string).
  intro H. vm_compute in H.
  repeat (destruct H as [H|H]; [discriminate H|]). exact H.
Defined.

(** ** The values extracted at the stations *)

Lemma snow_val_pairs (station : nat) (sts : timeseries) (vs : list cell) :
  snow_val station sts = Some vs ->
  Forall2 (fun e v => snow_val_at station (snd e) = Some v) sts vs.
Proof.
  revert vs. induction sts as [|e sts IH]; simpl; intros vs H.
  - injection H as <-. constructor.
  - destruct (snow_val_at station (snd e)) as [v|] eqn:Ev; [|discriminate].
    destruct (snow_val station sts) as [vs'|]; [|discriminate].
    injection H as <-. constructor; [exact Ev | apply IH; reflexivity].
Qed.

Lemma snow_val_some_iff (station : nat) (sts : timeseries) :
  (exists vs, snow_val station sts = Some vs) <->
  Forall (fun e => exists v more, nth_error (snd e) station = Some (v :: more)) sts.
Proof.
  induction sts as [|e sts IH]; simpl.
  - split; [constructor | intros _; eexists; reflexivity].
  - split.
    + intros [vs H]. unfold snow_val_at in H.
      destruct (nth_error (snd e) station) as [bands|] eqn:Eb; [|discriminate].
      destruct bands as [|v more]; [discriminate|]. simpl in H.
      destruct (snow_val station sts) as [vs'|]; [|discriminate].
      constructor.
      * exists v, more. exact Eb.
      * apply IH. eexists. reflexivity.
    + intro HF. inversion HF as [|e' l' He Hl]; subst.
      destruct He as [v [more Hn]].
      apply IH in Hl. destruct Hl as [vs' Hvs].
      unfold snow_val_at. rewrite Hn. simpl. rewrite Hvs. eexists. reflexivity.
Qed.

(** X9: The list of values of one station is built exactly when every time
    step of the JSON mapping holds a non-empty list of values at the
    index of the station (otherwise an index is out of range).  It then
    has one value per time step, in the order of [dates], and the value
    at each position is the one exported for the time stamp whose date
    stands at that position. *)
Theorem snow_val_aligned (station : nat) (snow_time_series : timeseries) :
  ((exists vs, snow_val station snow_time_series = Some vs) <->
   Forall (fun e => exists v more, nth_error (snd e) station = Some (v :: more))
          snow_time_series) /\
  (forall vs, snow_val station snow_time_series = Some vs ->
     List.length vs = List.length (dates_of snow_time_series) /\
     Forall2 (fun e dv => fst dv = split_T_0 (fst e) /\
                          snow_val_at station (snd e) = Some (snd dv))
             snow_time_series (combine (dates_of snow_time_series) vs)).
Proof.
  split; [apply snow_val_some_iff|].
  intros vs H. apply snow_val_pairs in H. unfold dates_of.
  induction H as [|e v sts vs' Hv _ [IHl IHf]]; simpl.
  - split; constructor.
  - split; [f_equal; exact IHl|]. constructor; [|exact IHf].
    simpl. split; [reflexivity|exact Hv].
Qed.

Lemma snow_val_aligned_witness :
  List.length [Num 1; Num 0] = List.length (dates_of Sample.snow_time_series).
Proof.
  apply (proj1 (proj2 (snow_val_aligned 1 Sample.snow_time_series) [Num 1; Num 0]
                  (Logic.eq_refl _))).
Defined.

(** ** One record per date *)

Lemma NoDup_map_filter {A B : Type} (g : A -> B) (f : A -> bool) (l : list A) :
  NoDup (map g l) -> NoDup (map g (filter f l)).
Proof.
  induction l as [|a l IH]; simpl; intro H; [constructor|].
  inversion H as [|x l' Hnin Hnd]; subst.
  destruct (f a); simpl; [|apply IH; exact Hnd].
  constructor; [|apply IH; exact Hnd].
  intro Hin. apply Hnin. apply in_map_iff in Hin.
  destruct Hin as [x [Hx Hin]]. apply filter_In in Hin.
  apply in_map_iff. exists x. tauto.
Qed.

(** X10: When a station has at most one record per date, the records kept
    for it are at most as many as the dates of the snow-map series; when
    moreover the dates are distinct and the station has a record on each
    of them, the kept records are exactly as many as the dates. *)
Theorem station_records_per_date (name : string) (dates : list string)
    (gdf : list station_record) :
  NoDup (map id (query_name name gdf)) ->
  NoDup (map id (station_on_dates name dates gdf)) /\
  (List.length (station_on_dates name dates gdf) <= List.length dates)%nat /\
  (NoDup dates ->
   (forall d, In d dates -> exists r, In r gdf /\ Name r = name /\ id r = d) ->
   List.length (station_on_dates name dates gdf) = List.length dates).
Proof.
  intro Hnd.
  assert (Hk : NoDup (map id (station_on_dates name dates gdf))).
  { unfold station_on_dates. apply NoDup_map_filter. exact Hnd. }
  assert (Hincl : incl (map id (station_on_dates name dates gdf)) dates).
  { intros d Hd. apply in_map_iff in Hd. destruct Hd as [r [<- Hr]].
    apply station_on_dates_In in Hr. tauto. }
  assert (Hle : (List.length (station_on_dates name dates gdf) <= List.length dates)%nat).
  { rewrite <- (length_map id). apply NoDup_incl_length; assumption. }
  split; [exact Hk|]. split; [exact Hle|].
  intros Hdd Hall. apply Nat.le_antisymm; [exact Hle|].
  rewrite <- (length_map id (station_on_dates name dates gdf)).
  apply NoDup_incl_length; [exact Hdd|].
  intros d Hd. destruct (Hall d Hd) as [r [Hr [Hn Hi]]].
  apply in_map_iff. exists r. split; [exact Hi|].
  apply station_on_dates_In. rewrite Hi. tauto.
Qed.

Lemma station_records_per_date_witness :
  (List.length (station_on_dates "Plata_Osservatore"
                  (dates_of Sample.snow_time_series) Sample.stations)
   <= List.length (dates_of Sample.snow_time_series))%nat.
Proof.
  refine (proj1 (proj2 (station_records_per_date "Plata_Osservatore"
                          (dates_of Sample.snow_time_series) Sample.stations _))).
  cbv. repeat (constructor; [simpl; intuition discriminate|]). constructor.
Defined.

(** ** Clipping and the vegetation index *)

Lemma Qle_bool_false (x y : Q) : Qle_bool x y = false -> y < x.
Proof.
  intro H. apply Qnot_le_lt. intro Hle. apply Qle_bool_iff in Hle. congruence.
Qed.

Lemma clip_num (q lo hi : Q) :
  lo <= hi ->
  exists c, clip (Num q) lo hi = Num c /\
            ((q <= lo /\ c == lo) \/ (hi <= q /\ c == hi) \/
             (lo <= q /\ q <= hi /\ c == q)).
Proof.
  intro Hlh. unfold clip.
  destruct (Qle_bool q lo) eqn:E1.
  - apply Qle_bool_iff in E1. destruct (Qle_bool hi lo) eqn:E2.
    + apply Qle_bool_iff in E2. exists hi. split; [reflexivity|].
      left. split; [exact E1 | lra].
    + exists lo. split; [reflexivity|]. left. split; [exact E1 | reflexivity].
  - apply Qle_bool_false in E1. destruct (Qle_bool hi q) eqn:E2.
    + apply Qle_bool_iff in E2. exists hi. split; [reflexivity|].
      right; left. split; [exact E2 | reflexivity].
    + apply Qle_bool_false in E2. exists q. split; [reflexivity|].
      right; right. repeat split; lra.
Qed.

Lemma clip_range (x : cell) (lo hi : Q) :
  lo <= hi -> x <> NA -> exists c, clip x lo hi = Num c /\ lo <= c /\ c <= hi.
Proof.
  intros Hlh Hx. destruct x as [q| | |].
  - destruct (clip_num q lo hi Hlh) as [c [Ec H]]. exists c. split; [exact Ec|].
    destruct H as [[H1 H2]|[[H1 H2]|[H1 [H2 H3]]]]; rewrite H2 || rewrite H3; lra.
  - exists hi. split; [reflexivity | lra].
  - exists lo. split; [reflexivity | lra].
  - contradiction.
Qed.

Lemma normalized_difference_cell (a b : Q) :
  0 <= a -> 0 <= b ->
  Cell.div (Cell.sub (Num a) (Num b)) (Cell.add (Num a) (Num b)) = NA \/
  exists q, Cell.div (Cell.sub (Num a) (Num b)) (Cell.add (Num a) (Num b)) = Num q
            /\ -1 <= q /\ q <= 1.
Proof.
  intros Ha Hb. simpl. destruct (Qeq_bool (a + b) 0) eqn:E.
  - left. apply Qeq_bool_iff in E.
    assert (Hz : a + - b == 0) by lra.
    unfold Cell.sgn. apply Qeq_alt in Hz. rewrite Hz. reflexivity.
  - right. exists ((a + - b) / (a + b)). split; [reflexivity|].
    apply normalized_difference_bounds; try assumption.
    intro H0. apply Qeq_bool_iff in H0. congruence.
Qed.

(** X11: After the band values were clipped to [0, 10000] the vegetation
    index of a cell is either undefined (a band without data, or both
    bands zero) or a finite number in [-1, 1]; the reducer fails only on
    a cell with fewer than two bands. *)
Theorem ndvi_range (bands : list cell) :
  (ndvi bands = None <-> (List.length bands < 2)%nat) /\
  (forall v, ndvi bands = Some v ->
     v = NA \/ exists q, v = Num q /\ -1 <= q /\ q <= 1).
Proof.
  unfold ndvi, NDVI, array_element, apply.
  destruct bands as [|red [|nir rest]]; simpl.
  - split; [split; [lia | reflexivity] | discriminate].
  - split; [split; [lia | reflexivity] | discriminate].
  - split; [split; [discriminate | lia]|].
    intros v H. injection H as <-.
    assert (Hc : forall x, x <> NA -> exists c, clip x 0 10000 = Num c /\ 0 <= c).
    { intros x Hx. destruct (clip_range x 0 10000) as [c [Ec [Hc0 _]]];
        [discriminate | exact Hx | exists c; split; assumption]. }
    destruct red as [r| | |], nir as [n| | |];
      try (left; reflexivity);
      try (left; destruct (Hc (Num r)) as [c [-> _]]; [discriminate | reflexivity]);
      match goal with
      | |- context [Cell.sub (clip ?nir _ _) (clip ?red _ _)] =>
          destruct (Hc red) as [cr [Er Hr0]]; [discriminate|];
          destruct (Hc nir) as [cn [En Hn0]]; [discriminate|];
          rewrite ?Er, ?En; apply normalized_difference_cell; assumption
      end.
Qed.

Lemma ndvi_range_witness :
  Num (2500 # 3500) = NA \/
  exists q, Num (2500 # 3500) = Num q /\ -1 <= q /\ q <= 1.
Proof.
  apply (proj2 (ndvi_range [Num 500; Num 3000]) (Num (2500 # 3500))).
  reflexivity.
Defined.

(** Without the clipping a negative band value takes the index out of
    [-1, 1]. *)
Example ndvi_unclipped_negative :
  NDVI [Num (-1); Num 2] = Some (Num 3) /\ ndvi [Num (-1); Num 2] = Some (Num (2 # 2)).
Proof. split; vm_compute; reflexivity. Qed.

(** ** Rescaling *)

Lemma rescale_clipped (x : cell) (c : Q) :
  clip x input_min input_max = Num c ->
  rescale x = Num ((c + - input_min) / (input_max + - input_min)
                   * (output_max + - output_min) + output_min).
Proof.
  intro H. unfold rescale, linear_scale_range. rewrite H. reflexivity.
Qed.

Lemma rescale_value (c : Q) :
  (c + - input_min) / (input_max + - input_min) * (output_max + - output_min) + output_min
  == (10 # 3) * c + (1 # 3).
Proof. unfold input_min, input_max, output_min, output_max. field. Qed.

Lemma input_range : input_min <= input_max.
Proof. discriminate. Qed.

(** X12: [rescale] maps every value into [0, 1]: a value between -0.1 and 0.2
    goes to (x + 0.1) / 0.3, every value below -0.1 (also -inf) to 0 and
    every value above 0.2 (also +inf) to 1; no-data stays no-data, and
    the map is monotone. *)
Theorem rescale_range :
  (forall x, x <> NA -> exists q, rescale x = Num q /\ 0 <= q /\ q <= 1) /\
  rescale NA = NA /\
  (forall a, input_min <= a -> a <= input_max ->
     exists q, rescale (Num a) = Num q /\ q == (a + (1 # 10)) / (3 # 10)) /\
  (forall a, a <= input_min -> exists q, rescale (Num a) = Num q /\ q == 0) /\
  (forall a, input_max <= a -> exists q, rescale (Num a) = Num q /\ q == 1) /\
  (forall a b, a <= b ->
     exists qa qb, rescale (Num a) = Num qa /\ rescale (Num b) = Num qb /\ qa <= qb).
Proof.
  assert (Hnum : forall a, exists c,
            rescale (Num a) = Num ((c + - input_min) / (input_max + - input_min)
                                   * (output_max + - output_min) + output_min) /\
            ((a <= input_min /\ c == input_min) \/ (input_max <= a /\ c == input_max) \/
             (input_min <= a /\ a <= input_max /\ c == a))).
  { intro a. destruct (clip_num a input_min input_max input_range) as [c [Ec H]].
    exists c. split; [apply rescale_clipped; exact Ec | exact H]. }
  split; [|split; [|split; [|split; [|split]]]].
  - intros x Hx.
    destruct (clip_range x input_min input_max input_range Hx) as [c [Ec [Hlo Hhi]]].
    eexists. split; [apply rescale_clipped; exact Ec|].
    rewrite rescale_value. unfold input_min, input_max in *. split; lra.
  - reflexivity.
  - intros a Hlo Hhi. destruct (Hnum a) as [c [E H]].
    eexists. split; [exact E|]. rewrite rescale_value.
    assert (Hd : (a + (1 # 10)) / (3 # 10) == (10 # 3) * a + (1 # 3)) by field.
    rewrite Hd. unfold input_min, input_max in *.
    destruct H as [[H1 H2]|[[H1 H2]|[H1 [H2 H3]]]]; lra.
  - intros a Hlo. destruct (Hnum a) as [c [E H]].
    eexists. split; [exact E|]. rewrite rescale_value.
    unfold input_min, input_max in *.
    destruct H as [[H1 H2]|[[H1 H2]|[H1 [H2 H3]]]]; lra.
  - intros a Hhi. destruct (Hnum a) as [c [E H]].
    eexists. split; [exact E|]. rewrite rescale_value.
    unfold input_min, input_max in *.
    destruct H as [[H1 H2]|[[H1 H2]|[H1 [H2 H3]]]]; lra.
  - intros a b Hab. destruct (Hnum a) as [ca [Ea Ha]]. destruct (Hnum b) as [cb [Eb Hb]].
    eexists. eexists. split; [exact Ea|]. split; [exact Eb|].
    rewrite !rescale_value. unfold input_min, input_max in *.
    destruct Ha as [[H1 H2]|[[H1 H2]|[H1 [H2 H3]]]];
      destruct Hb as [[H4 H5]|[[H4 H5]|[H4 [H5 H6]]]]; lra.
Qed.

Lemma rescale_range_witness :
  exists q, rescale (Num (5 # 100)) = Num q /\ q == ((5 # 100) + (1 # 10)) / (3 # 10).
Proof.
  apply (proj1 (proj2 (proj2 rescale_range)) (5 # 100)); discriminate.
Defined.

(** ** The median of the cells of a region *)

Lemma cle_num (x y : Q) : cle (Num x) (Num y) = true <-> x <= y.
Proof.
  unfold cle. simpl. rewrite negb_involutive. apply Qle_bool_iff.
Qed.

Lemma insert_cell_perm (a : cell) (l : list cell) :
  Permutation (a :: l) (insert_cell a l).
Proof.
  induction l as [|b l IH]; simpl.
  - apply Permutation_refl.
  - destruct (cle a b).
    + apply Permutation_refl.
    + eapply perm_trans; [apply perm_swap|]. apply perm_skip. exact IH.
Qed.

Lemma sort_cells_perm (l : list cell) : Permutation l (sort_cells l).
Proof.
  unfold sort_cells. induction l as [|a l IH]; simpl.
  - constructor.
  - eapply perm_trans; [apply perm_skip; exact IH|]. apply insert_cell_perm.
Qed.

Lemma filter_length_perm {A : Type} (f : A -> bool) (l l' : list A) :
  Permutation l l' -> List.length (filter f l) = List.length (filter f l').
Proof.
  induction 1 as [|x l l' _ IH|x y l|l l' l'' _ IH1 _ IH2]; simpl.
  - reflexivity.
  - destruct (f x); simpl; rewrite IH; reflexivity.
  - destruct (f x), (f y); reflexivity.
  - rewrite IH1. exact IH2.
Qed.

Lemma insert_cell_sorted (a : cell) (l : list cell) :
  (exists q, a = Num q) -> Forall (fun c => exists q, c = Num q) l ->
  StronglySorted (fun x y => cle x y = true) l ->
  StronglySorted (fun x y => cle x y = true) (insert_cell a l).
Proof.
  intros [qa ->] Hfin Hs. induction Hs as [|b l Hs IH Hb]; simpl.
  - constructor; constructor.
  - inversion Hfin as [|b' l' [qb Eb] Hfin']; subst.
    destruct (cle (Num qa) (Num qb)) eqn:E.
    + constructor; [constructor; assumption|]. constructor; [exact E|].
      apply cle_num in E. rewrite Forall_forall in *. intros x Hx.
      destruct (Hfin' x Hx) as [qx ->]. apply cle_num.
      specialize (Hb _ Hx). apply cle_num in Hb. lra.
    + constructor; [apply IH; exact Hfin'|].
      assert (Hba : qb <= qa).
      { apply Qlt_le_weak, Qnot_le_lt. intro H. apply cle_num in H. congruence. }
      rewrite Forall_forall in *. intros x Hx.
      apply (Permutation_in _ (Permutation_sym (insert_cell_perm (Num qa) l))) in Hx.
      destruct Hx as [<-|Hx]; [apply cle_num; exact Hba | apply Hb; exact Hx].
Qed.

Lemma sort_cells_sorted (l : list cell) :
  Forall (fun c => exists q, c = Num q) l ->
  StronglySorted (fun x y => cle x y = true) (sort_cells l).
Proof.
  unfold sort_cells. induction 1 as [|a l Ha Hl IH]; simpl.
  - constructor.
  - apply insert_cell_sorted; [exact Ha | | exact IH].
    rewrite Forall_forall in *. intros x Hx.
    apply Hl. apply (Permutation_in _ (Permutation_sym (sort_cells_perm l))). exact Hx.
Qed.

Lemma sorted_across {A : Type} (R : A -> A -> Prop) (l1 l2 : list A) :
  StronglySorted R (l1 ++ l2) -> forall x y, In x l1 -> In y l2 -> R x y.
Proof.
  induction l1 as [|a l1 IH]; simpl; intros Hs x y Hx Hy; [contradiction|].
  inversion Hs as [|a' l' Hs' Ha]; subst.
  destruct Hx as [<-|Hx].
  - rewrite Forall_forall in Ha. apply Ha. apply in_or_app. right. exact Hy.
  - apply (IH Hs' x y Hx Hy).
Qed.

(** Valid cells that are all finite numbers. *)
Lemma valid_finite (vs : list cell) :
  (forall c, In c vs -> c = NA \/ exists q, c = Num q) ->
  Forall (fun c => exists q, c = Num q) (filter valid vs).
Proof.
  intro H. apply Forall_forall. intros c Hc. apply filter_In in Hc.
  destruct Hc as [Hin Hv]. destruct (H c Hin) as [->|Hq]; [discriminate|exact Hq].
Qed.

Lemma count_value_valid (k : Q) (vs : list cell) :
  count_value k (filter valid vs) = count_value k vs.
Proof.
  unfold count_value. induction vs as [|c vs IH]; simpl; [reflexivity|].
  destruct c; simpl; try (destruct (Qeq_bool q k)); simpl; rewrite ?IH; reflexivity.
Qed.

Lemma middle_is_majority (k : Q) (s : list cell) (i : nat) :
  Forall (fun c => exists q, c = Num q) s ->
  StronglySorted (fun x y => cle x y = true) s ->
  (List.length s < 2 * count_value k s)%nat ->
  (2 * i <= List.length s)%nat -> (List.length s <= 2 * i + 2)%nat ->
  (i < List.length s)%nat ->
  exists q, nth i s NA = Num q /\ q == k.
Proof.
  intros Hfin Hs Hmaj Hlo Hhi Hi.
  destruct (nth_error s i) as [a|] eqn:Ea;
    [|apply nth_error_None in Ea; lia].
  assert (Hsplit : firstn i s ++ a :: skipn (S i) s = s)
    by (apply firstn_skipn_middle; exact Ea).
  assert (Hnth : nth i s NA = a) by (apply nth_error_nth; exact Ea).
  rewrite Forall_forall in Hfin.
  destruct (Hfin a (nth_error_In _ _ Ea)) as [q ->].
  exists q. split; [exact Hnth|].
  set (l1 := firstn i s) in *. set (l2 := skipn (S i) s) in *.
  assert (Hl1 : List.length l1 = i).
  { unfold l1. rewrite length_firstn. lia. }
  assert (Hl2 : (List.length l2 = List.length s - S i)%nat).
  { unfold l2. apply length_skipn. }
  assert (Hcount : (count_value k s
            = count_value k l1 + (if Qeq_bool q k then 1 else 0) + count_value k l2)%nat).
  { rewrite <- Hsplit at 1. unfold count_value. rewrite filter_app, length_app. simpl.
    destruct (Qeq_bool q k); simpl; lia. }
  assert (Hc1 : (count_value k l1 <= i)%nat).
  { rewrite <- Hl1. apply filter_length_le. }
  assert (Hc2 : (count_value k l2 <= List.length s - S i)%nat).
  { rewrite <- Hl2. apply filter_length_le. }
  destruct (Qeq_bool q k) eqn:Eqk; [apply Qeq_bool_iff; exact Eqk|].
  exfalso.
  assert (Hne : ~ q == k) by (intro H; apply Qeq_bool_iff in H; congruence).
  destruct (Qlt_le_dec q k) as [Hlt|Hge].
  - (* the cells before the middle are smaller than k *)
    assert (Hz : count_value k l1 = 0%nat).
    { unfold count_value. rewrite (filter_none _ l1); [reflexivity|].
      intros x Hx.
      assert (Hxs : In x s) by (rewrite <- Hsplit; apply in_or_app; left; exact Hx).
      destruct (Hfin x Hxs) as [qx ->].
      assert (Hle : cle (Num qx) (Num q) = true).
      { rewrite <- Hsplit in Hs. apply (sorted_across _ _ _ Hs); [exact Hx | left; reflexivity]. }
      apply cle_num in Hle. simpl.
      destruct (Qeq_bool qx k) eqn:E; [|reflexivity].
      apply Qeq_bool_iff in E. lra. }
    lia.
  - (* the cells after the middle are greater than k *)
    assert (Hgt : k < q).
    { destruct (Qlt_le_dec k q) as [H|H]; [exact H|]. exfalso. apply Hne. lra. }
    assert (Hz : count_value k l2 = 0%nat).
    { unfold count_value. rewrite (filter_none _ l2); [reflexivity|].
      intros x Hx.
      assert (Hxs : In x s).
      { rewrite <- Hsplit. apply in_or_app. right. right. exact Hx. }
      destruct (Hfin x Hxs) as [qx ->].
      assert (Hle : cle (Num q) (Num qx) = true).
      { assert (Hs' : StronglySorted (fun x y => cle x y = true) ((l1 ++ [Num q]) ++ l2)).
        { rewrite <- app_assoc. simpl. rewrite Hsplit. exact Hs. }
        apply (sorted_across _ _ _ Hs'); [apply in_or_app; right; left; reflexivity | exact Hx]. }
      apply cle_num in Hle. simpl.
      destruct (Qeq_bool qx k) eqn:E; [|reflexivity].
      apply Qeq_bool_iff in E. lra. }
    lia.
Qed.

Lemma half_parity (n : nat) :
  (n = 2 * (n / 2) + (if Nat.odd n then 1 else 0))%nat.
Proof.
  rewrite <- Nat.div2_div. rewrite (Nat.div2_odd n) at 1.
  destruct (Nat.odd n); reflexivity.
Qed.

Lemma mean_of_two (a b : Q) :
  Cell.div (Cell.add (Num a) (Num b)) (Num 2) = Num ((a + b) / 2).
Proof. reflexivity. Qed.

Lemma median_of_sorted (vs : list cell) :
  let s := sort_cells (filter valid vs) in
  let n := List.length s in
  (n = 0%nat /\ median vs = NA) \/
  ((0 < n)%nat /\ Nat.odd n = true /\ median vs = nth (n / 2) s NA) \/
  ((0 < n)%nat /\ Nat.odd n = false /\
   median vs = Cell.div (Cell.add (nth (n / 2 - 1) s NA) (nth (n / 2) s NA)) (Num 2)).
Proof.
  intros s n. unfold median. fold s. fold n.
  destruct n as [|m] eqn:En; [left; split; reflexivity|].
  right. simpl Nat.eqb. cbv iota.
  destruct (Nat.odd (S m)) eqn:Eo; [left | right]; repeat split; lia.
Qed.

Lemma median_majority_value (k : Q) (vs : list cell) :
  (forall c, In c vs -> c = NA \/ exists q, c = Num q) ->
  (List.length (filter valid vs) < 2 * count_value k vs)%nat ->
  exists q, median vs = Num q /\ q == k.
Proof.
  intros Hfin Hmaj.
  assert (Hperm := sort_cells_perm (filter valid vs)).
  assert (Hf : Forall (fun c => exists q, c = Num q) (sort_cells (filter valid vs))).
  { apply Forall_forall. intros c Hc.
    apply (Permutation_in _ (Permutation_sym Hperm)) in Hc.
    revert c Hc. apply Forall_forall. apply valid_finite. exact Hfin. }
  assert (Hs := sort_cells_sorted _ (valid_finite vs Hfin)).
  assert (Hlen := Permutation_length Hperm).
  assert (Hcnt : count_value k (sort_cells (filter valid vs)) = count_value k vs).
  { rewrite <- (count_value_valid k vs). unfold count_value. symmetry.
    apply filter_length_perm. exact Hperm. }
  assert (Hmaj' : (List.length (sort_cells (filter valid vs))
                   < 2 * count_value k (sort_cells (filter valid vs)))%nat)
    by (rewrite Hcnt, <- Hlen; exact Hmaj).
  assert (Hcle : (count_value k (sort_cells (filter valid vs))
                  <= List.length (sort_cells (filter valid vs)))%nat)
    by apply filter_length_le.
  destruct (median_of_sorted vs) as [[Hn _]|[[Hn [Ho ->]]|[Hn [Ho ->]]]];
    set (s := sort_cells (filter valid vs)) in *;
    assert (Hpar := half_parity (List.length s)); rewrite ?Ho in Hpar.
  - exfalso. lia.
  - apply (middle_is_majority k s); try assumption; lia.
  - destruct (middle_is_majority k s (List.length s / 2 - 1)) as [q1 [E1 H1]];
      try assumption; try lia.
    destruct (middle_is_majority k s (List.length s / 2)) as [q2 [E2 H2]];
      try assumption; try lia.
    rewrite E1, E2, mean_of_two. eexists. split; [reflexivity|].
    rewrite H1, H2. field.
Qed.

Lemma median_within (lo hi : Q) (vs : list cell) :
  (forall c, In c vs -> c = NA \/ exists q, c = Num q /\ lo <= q /\ q <= hi) ->
  (filter valid vs = [] /\ median vs = NA) \/
  (filter valid vs <> [] /\ exists m, median vs = Num m /\ lo <= m /\ m <= hi).
Proof.
  intro Hin.
  assert (Hperm := sort_cells_perm (filter valid vs)).
  assert (Hlen := Permutation_length Hperm).
  assert (Hel : forall i, (i < List.length (sort_cells (filter valid vs)))%nat ->
            exists q, nth i (sort_cells (filter valid vs)) NA = Num q /\ lo <= q /\ q <= hi).
  { intros i Hi.
    assert (H := nth_In (sort_cells (filter valid vs)) NA Hi).
    apply (Permutation_in _ (Permutation_sym Hperm)) in H. apply filter_In in H.
    destruct H as [H Hv]. destruct (Hin _ H) as [E|Hq]; [|exact Hq].
    rewrite E in Hv. discriminate. }
  destruct (median_of_sorted vs) as [[Hn Hm]|[[Hn [Ho Hm]]|[Hn [Ho Hm]]]];
    set (s := sort_cells (filter valid vs)) in *;
    assert (Hpar := half_parity (List.length s)); rewrite ?Ho in Hpar.
  - left. split; [|exact Hm]. destruct (filter valid vs); [reflexivity|].
    simpl in Hlen. lia.
  - right. split; [intro E; rewrite E in Hlen; simpl in Hlen; lia|].
    destruct (Hel (List.length s / 2)%nat) as [q [E Hq]]; [lia|].
    exists q. rewrite Hm. split; assumption.
  - right. split; [intro E; rewrite E in Hlen; simpl in Hlen; lia|].
    destruct (Hel (List.length s / 2 - 1)%nat) as [q1 [E1 [H1 H1']]]; [lia|].
    destruct (Hel (List.length s / 2)%nat) as [q2 [E2 [H2 H2']]]; [lia|].
    exists ((q1 + q2) / 2). rewrite Hm, E1, E2. split; [apply mean_of_two|].
    split; [apply Qle_shift_div_l | apply Qle_shift_div_r]; lra.
Qed.

(** X13: If more than half of the valid cells hold the value [k], the median
    is [k]; cells without data are not counted. *)
Theorem median_majority (k : Q) (vs : list cell) :
  (forall c, In c vs -> c = NA \/ exists q, c = Num q) ->
  (List.length (filter valid vs) < 2 * count_value k vs)%nat ->
  exists q, median vs = Num q /\ q == k.
Proof. exact (median_majority_value k vs). Qed.

Lemma median_majority_witness :
  exists q, median [Num 1; Num 0; NA; Num 1] = Num q /\ q == 1.
Proof.
  apply (median_majority 1 [Num 1; Num 0; NA; Num 1]).
  - intros c Hc. simpl in Hc.
    destruct Hc as [<-|[<-|[<-|[<-|[]]]]]; (left; reflexivity) || (right; eexists; reflexivity).
  - vm_compute. lia.
Defined.

(** X14: The median of cells whose values lie between [lo] and [hi] is a
    number between [lo] and [hi]; it is the no-data value exactly when
    no cell holds a value, in particular for an empty region. *)
Theorem median_in_range (lo hi : Q) (vs : list cell) :
  (forall c, In c vs -> c = NA \/ exists q, c = Num q /\ lo <= q /\ q <= hi) ->
  (filter valid vs = [] /\ median vs = NA) \/
  (filter valid vs <> [] /\ exists m, median vs = Num m /\ lo <= m /\ m <= hi).
Proof. exact (median_within lo hi vs). Qed.

Lemma median_in_range_witness :
  (filter valid [Num 0; Num 1] = [] /\ median [Num 0; Num 1] = NA) \/
  (filter valid [Num 0; Num 1] <> [] /\
   exists m, median [Num 0; Num 1] = Num m /\ 0 <= m /\ m <= 2).
Proof.
  apply (median_in_range 0 2 [Num 0; Num 1]).
  intros c Hc. simpl in Hc. right.
  destruct Hc as [<-|[<-|[]]]; eexists; (split; [reflexivity|]); split; discriminate.
Defined.

(** A buffer of one snow and one snow-free cell gives 0.5, which is no
    class. *)
Example median_of_tie : median [Num 0; Num 1] = Num (1 # 2).
Proof. vm_compute. reflexivity. Qed.

(** ** The snow map at the stations *)

(** X15: For any snow map whose cells in a station buffer are no-data or
    between 0 and 2, the value extracted for the buffer is the no-data
    value when no cell of the buffer holds a value and otherwise a
    number between 0 and 2; when more than half of the cells that hold
    a value are of one class, it is that class. *)
Theorem station_median (snow_map_cloud_free : pixel -> cell)
    (buffers : list geometry) (slice : list pixel) (g : geometry) :
  In g buffers ->
  (forall p, In p slice -> within g p = true ->
     snow_map_cloud_free p = NA \/
     exists q, snow_map_cloud_free p = Num q /\ 0 <= q /\ q <= 2) ->
  exists v,
    In [v] (snowmap_per_station snow_map_cloud_free buffers slice) /\
    ((filter valid (map snow_map_cloud_free (filter (within g) slice)) = [] /\ v = NA) \/
     (filter valid (map snow_map_cloud_free (filter (within g) slice)) <> [] /\
      exists m, v = Num m /\ 0 <= m /\ m <= 2)) /\
    (forall k,
       (List.length (filter valid (map snow_map_cloud_free (filter (within g) slice)))
        < 2 * count_value k (map snow_map_cloud_free (filter (within g) slice)))%nat ->
       exists q, v = Num q /\ q == k).
Proof.
  intros Hg Hval. set (region := filter (within g) slice).
  assert (Hvals : forall c, In c (map snow_map_cloud_free region) ->
            c = NA \/ exists q, c = Num q /\ 0 <= q /\ q <= 2).
  { intros c Hc. apply in_map_iff in Hc. destruct Hc as [p [<- Hp]].
    apply filter_In in Hp. apply Hval; tauto. }
  exists (median (map snow_map_cloud_free region)).
  split; [|split].
  - unfold snowmap_per_station. apply in_map_iff. exists g. split; [reflexivity|exact Hg].
  - apply (median_within 0 2). exact Hvals.
  - intros k Hk. apply median_majority_value; [|exact Hk].
    intros c Hc. destruct (Hvals c Hc) as [E|[q [E _]]];
      [left; exact E | right; exists q; exact E].
Qed.

Lemma station_median_witness :
  exists v,
    In [v] (snowmap_per_station snowmap_cloudfree [Sample.catchment] Sample.mixed_slice) /\
    ((filter valid (map snowmap_cloudfree
                      (filter (within Sample.catchment) Sample.mixed_slice)) = [] /\ v = NA) \/
     (filter valid (map snowmap_cloudfree
                      (filter (within Sample.catchment) Sample.mixed_slice)) <> [] /\
      exists m, v = Num m /\ 0 <= m /\ m <= 2)) /\
    (forall k,
       (List.length (filter valid (map snowmap_cloudfree
                                     (filter (within Sample.catchment) Sample.mixed_slice)))
        < 2 * count_value k (map snowmap_cloudfree
                               (filter (within Sample.catchment) Sample.mixed_slice)))%nat ->
       exists q, v = Num q /\ q == k).
Proof.
  apply (station_median snowmap_cloudfree [Sample.catchment] Sample.mixed_slice
                        Sample.catchment).
  - left. reflexivity.
  - intros p _ _. right.
    destruct (snowmap_cloudfree_class p) as [E|[E|E]]; rewrite E; eexists;
      (split; [reflexivity|]); split; discriminate.
Defined.

(** ** The vegetation index of the spatial medians *)

Lemma nth_clipped (i : nat) (bands : list cell) :
  nth i (apply (fun x => clip x 0 10000) bands) NA = NA \/
  exists q, nth i (apply (fun x => clip x 0 10000) bands) NA = Num q
            /\ 0 <= q /\ q <= 10000.
Proof.
  unfold apply.
  change NA with ((fun x => clip x 0 10000) NA) at 1 3.
  rewrite map_nth.
  destruct (nth i bands NA) as [q| | |] eqn:E.
  - right. apply clip_range; discriminate.
  - right. apply clip_range; discriminate.
  - right. apply clip_range; discriminate.
  - left. reflexivity.
Qed.

(** X16: The vegetation index computed from the spatial medians of the
    clipped bands is always defined, and is either the no-data value or
    a finite number in [-1, 1]. *)
Theorem ndvi_spatial_range (cells : list (list cell)) :
  exists v, ndvi_spatial cells = Some v /\
            (v = NA \/ exists q, v = Num q /\ -1 <= q /\ q <= 1).
Proof.
  unfold ndvi_spatial, reduce_spatial, NDVI, array_element. simpl.
  rewrite !map_map.
  set (reds := map (fun x => nth 0 (apply (fun x0 => clip x0 0 10000) x) NA) cells).
  set (nirs := map (fun x => nth 1 (apply (fun x0 => clip x0 0 10000) x) NA) cells).
  eexists. split; [reflexivity|].
  assert (Hr : forall c, In c reds -> c = NA \/ exists q, c = Num q /\ 0 <= q /\ q <= 10000).
  { intros c Hc. apply in_map_iff in Hc. destruct Hc as [b [<- _]]. apply nth_clipped. }
  assert (Hn : forall c, In c nirs -> c = NA \/ exists q, c = Num q /\ 0 <= q /\ q <= 10000).
  { intros c Hc. apply in_map_iff in Hc. destruct Hc as [b [<- _]]. apply nth_clipped. }
  destruct (median_within 0 10000 reds Hr) as [[_ ->]|[_ [r [-> [Hr0 _]]]]];
    destruct (median_within 0 10000 nirs Hn) as [[_ ->]|[_ [n [-> [Hn0 _]]]]];
    try (left; reflexivity).
  apply normalized_difference_cell; assumption.
Qed.

(** ** The item identifier *)

Lemma chars_append (a b : string) : chars (a ++ b) = chars a ++ chars b.
Proof.
  unfold chars. induction a as [|c a IH]; simpl; [reflexivity|]. rewrite IH. reflexivity.
Qed.

Lemma chars_length (s : string) : List.length (chars s) = String.length s.
Proof.
  unfold chars. induction s as [|c s IH]; simpl; [reflexivity|]. rewrite IH. reflexivity.
Qed.

Lemma split_on_words (sep : ascii) (s : string) :
  List.length (split_on sep s) = S (count_occ ascii_dec (chars s) sep) /\
  forall w, In w (split_on sep s) -> ~ In sep (chars w).
Proof.
  induction s as [|c s [IHl IHw]]; simpl.
  - split; [reflexivity|]. intros w [<-|[]]. simpl. tauto.
  - destruct (Ascii.eqb c sep) eqn:E.
    + apply Ascii.eqb_eq in E. subst c. split.
      * simpl. destruct (ascii_dec sep sep) as [_|N]; [|contradiction].
        rewrite IHl. reflexivity.
      * intros w [<-|Hw]; [simpl; tauto | apply IHw; exact Hw].
    + assert (Hne : c <> sep) by (intro H; subst; rewrite Ascii.eqb_refl in E; discriminate).
      destruct (split_on sep s) as [|w0 ws] eqn:Es; [simpl in IHl; discriminate|].
      split.
      * simpl. destruct (ascii_dec c sep) as [H|_]; [contradiction|]. exact IHl.
      * intros w [<-|Hw].
        -- simpl. intros [H|H]; [exact (Hne H)|]. apply (IHw w0); [left; reflexivity|exact H].
        -- apply IHw. right. exact Hw.
Qed.

Lemma substring_prefix (m : nat) (w : string) :
  (String.length (substring 0 m w) <= m)%nat /\
  forall c, In c (chars (substring 0 m w)) -> In c (chars w).
Proof.
  revert w. induction m as [|m IH]; intro w.
  - destruct w; simpl; split; try lia; tauto.
  - destruct w as [|c w]; simpl.
    + split; [lia | tauto].
    + destruct (IH w) as [Hl Hc]. split; [lia|].
      intros x [H|H]; [left; exact H | right; apply Hc; exact H].
Qed.

Lemma concat_words (ws : list string) :
  (forall c, In c (chars (String.concat "" ws)) -> exists w, In w ws /\ In c (chars w)) /\
  (forall m, (forall w, In w ws -> (String.length w <= m)%nat) ->
             (String.length (String.concat "" ws) <= m * List.length ws)%nat).
Proof.
  induction ws as [|w ws [IHc IHl]].
  - simpl. split; [tauto | intros; lia].
  - destruct ws as [|w' ws].
    + simpl. split.
      * intros c Hc. exists w. tauto.
      * intros m H. specialize (H w (or_introl Logic.eq_refl)). lia.
    + change (String.concat "" (w :: w' :: ws))
        with (w ++ String.concat "" (w' :: ws))%string.
      split.
      * intros c Hc. rewrite chars_append in Hc. apply in_app_or in Hc.
        destruct Hc as [Hc|Hc]; [exists w; split; [left; reflexivity|exact Hc]|].
        destruct (IHc c Hc) as [x [Hx Hcx]]. exists x. split; [right; exact Hx|exact Hcx].
      * intros m H. rewrite <- chars_length, chars_append, length_app, !chars_length.
        assert (H1 := H w (or_introl Logic.eq_refl)).
        assert (H2 := IHl m (fun x Hx => H x (or_intror Hx))).
        simpl List.length in *. lia.
Qed.

Lemma lower_ascii_cases (c : ascii) :
  ~ (65 <= nat_of_ascii (lower_ascii c) <= 90)%nat /\
  (lower_ascii c = " "%char -> c = " "%char).
Proof.
  destruct c as [[] [] [] [] [] [] [] []]; vm_compute; split;
    solve [ lia | intro H; (reflexivity || discriminate H) ].
Qed.

Lemma lower_chars (s : string) :
  chars (lower s) = map lower_ascii (chars s).
Proof.
  unfold chars. induction s as [|c s IH]; simpl; [reflexivity|]. rewrite IH. reflexivity.
Qed.

(** X17: The identifier of the item is ["snowcover_"], the initials and the
    date, joined by ['_'].  The initials hold at most two characters for
    each word of the name, no blank and no capital letter; a name of n
    blanks has n + 1 words, and the empty name gives no initials at
    all. *)
Theorem item_id_shape (name now_isoformat : string) :
  exists initials,
    item_id name now_isoformat
    = ("snowcover_" ++ initials ++ "_" ++ split_T_0 now_isoformat)%string /\
    ~ In " "%char (chars initials) /\
    (forall c, In c (chars initials) -> ~ (65 <= nat_of_ascii c <= 90)%nat) /\
    List.length (author_id name) = S (count_occ ascii_dec (chars name) " "%char) /\
    (String.length initials <= 2 * List.length (author_id name))%nat /\
    (name = EmptyString -> initials = EmptyString).
Proof.
  exists (lower (String.concat "" (author_id name))).
  destruct (split_on_words " " name) as [Hlen Hw].
  destruct (concat_words (author_id name)) as [Hc Hl].
  split; [reflexivity|]. split; [|split; [|split; [|split]]].
  - rewrite lower_chars. intro H. apply in_map_iff in H.
    destruct H as [c [Hc1 Hc2]]. apply lower_ascii_cases in Hc1. subst c.
    destruct (Hc _ Hc2) as [w [Hin Hcw]]. unfold author_id in Hin.
    apply in_map_iff in Hin. destruct Hin as [w0 [<- Hw0]].
    apply substring_prefix in Hcw. exact (Hw w0 Hw0 Hcw).
  - intros c H. rewrite lower_chars in H. apply in_map_iff in H.
    destruct H as [c0 [<- _]]. apply lower_ascii_cases.
  - unfold author_id. rewrite length_map. exact Hlen.
  - rewrite <- chars_length, lower_chars, length_map, chars_length.
    apply Hl. intros w Hin. unfold author_id in Hin.
    apply in_map_iff in Hin. destruct Hin as [w0 [<- _]]. apply substring_prefix.
  - intros ->. reflexivity.
Qed.

Lemma item_id_shape_witness :
  exists initials,
    item_id "" "2026-11-03T10:15:00"
    = ("snowcover_" ++ initials ++ "_" ++ split_T_0 "2026-11-03T10:15:00")%string /\
    ~ In " "%char (chars initials) /\
    (forall c, In c (chars initials) -> ~ (65 <= nat_of_ascii c <= 90)%nat) /\
    List.length (author_id "") = S (count_occ ascii_dec (chars "") " "%char) /\
    (String.length initials <= 2 * List.length (author_id ""))%nat /\
    (EmptyString = EmptyString -> initials = EmptyString).
Proof. apply (item_id_shape "" "2026-11-03T10:15:00"). Defined.

Example item_id_jane_doe :
  item_id "Jane Doe" "2026-11-03T10:15:00" = "snowcover_jado_2026-11-03"%string.
Proof. reflexivity. Qed.

(** ** Repeating the cloud filter *)

(** X6: Filtering a filtered frame again changes nothing; the filter never
    adds a row, and it returns the frame itself exactly when every row
    is below the threshold. *)
Theorem df_filtered_stable (df : dataframe) :
  df_filtered (df_filtered df) = df_filtered df /\
  (List.length (df_filtered df) <= List.length df)%nat /\
  (df_filtered df = df <-> forall r, In r df -> below_threshold r = true).
Proof.
  unfold df_filtered. split; [|split].
  - apply filter_all. intros r H. apply filter_In in H. exact (proj2 H).
  - apply filter_length_le.
  - split.
    + intros E r Hr. rewrite <- E in Hr. apply filter_In in Hr. exact (proj2 Hr).
    + apply filter_all.
Qed.
